(** * QR access tokens: issuance and verification handlers of [server.js]

    A shallow embedding of the two request handlers of [server.js]
    ([app.post('/generate-qr')] and [app.get('/verify-qr')]) over the
    in-memory token store [qrTokenStore], with the properties of the token
    life cycle proved about them.

    Modelling choices, fixed once for the whole development:
    - a JavaScript number is an IEEE 754 binary64 value ([spec_float] with
      precision 53 and maximal exponent 1024), so that [NaN], the
      infinities and rounding behave as they do in the program;
    - a JavaScript string is a [string] whose characters are the code
      units below 256; the fixed Korean texts of the program (the three
      values of [status], the response bodies, the prefix of the re-thrown
      error) are constructors of enumerations, named after their meaning;
    - [qrTokenStore] is a [gmap] from token strings to records for its own
      properties, behind which sits [Object.prototype], as for every
      object literal;
    - the fields of [req.body] and the [token] of [req.query] are strings
      or absent;
    - what the libraries answer ([Date.now], [uuidv4],
      [qrcode.toDataURL], [sendOne], [axios.get], [axios.post]) is an
      argument of the handler;
    - the handlers come twice: [generate_qr] and [verify_qr] run from
      their first line to their response without another request in
      between; module [Live] cuts the verification handler at its two
      [await]s and lets any other request run there, on record objects
      that the waiting handlers share. What depends on requests that
      run at the same time is stated on [Live]. *)

From Stdlib Require Import ZArith Lia Bool String Ascii List SpecFloat.
From Stdlib Require Import Decimal DecimalString DecimalPos DecimalN.
From stdpp Require Import gmap strings list fin_maps.

Local Open Scope Z_scope.

(** ** JavaScript numbers *)

Module JSNumber.

Definition prec : Z := 53.
Definition emax : Z := 1024.

(** The Number type. *)
Definition t : Type := spec_float.

Definition NaN : t := S754_nan.

(** The Number value of a mathematical integer, rounded to nearest,
    ties to even. *)
Definition of_Z (z : Z) : t := binary_normalize prec emax z 0 false.

(** [x + y] and [x * y] on Numbers. *)
Definition add (x y : t) : t := SFadd prec emax x y.
Definition mul (x y : t) : t := SFmul prec emax x y.

(** [x > y] on Numbers: false as soon as an operand is [NaN]. *)
Definition gt (x y : t) : bool := SFltb y x.

(** The Number that holds the positive integer [z] when [z] has at most
    53 bits: a 53-bit mantissa, [z] shifted to the left. *)
Definition normal (s : bool) (z : Z) : t :=
  S754_finite s (Z.to_pos (z * 2 ^ (52 - Z.log2 z))) (Z.log2 z - 52).

(** Largest integer [n] such that [n] and [n + 1] are both Numbers
    ([Number.MAX_SAFE_INTEGER]). *)
Definition max_safe_integer : Z := 2 ^ 53 - 1.

End JSNumber.

(** ** JavaScript strings *)

Module JSString.

(** The code unit of a character, as an integer. *)
Definition code_unit (c : ascii) : Z := Z.of_N (N_of_ascii c).

(** [!s] for a value that is a string or [undefined] ([None]): only
    [undefined] and the empty string are falsy. *)
Definition falsy (s : option string) : bool :=
  match s with
  | None => true
  | Some EmptyString => true
  | Some (String _ _) => false
  end.

(** [s.replace(/-/g, '')]. *)
Fixpoint strip_hyphens (s : string) : string :=
  match s with
  | EmptyString => EmptyString
  | String c rest =>
      if Ascii.eqb c "-"%char then strip_hyphens rest
      else String c (strip_hyphens rest)
  end.

(** White space and line terminators among the code units below 256:
    TAB, LF, VT, FF, CR, SP and NBSP. *)
Definition is_white_space (c : ascii) : bool :=
  let u := code_unit c in
  ((9 <=? u) && (u <=? 13)) || (u =? 32) || (u =? 160).

Fixpoint trim_start (s : string) : string :=
  match s with
  | EmptyString => EmptyString
  | String c rest => if is_white_space c then trim_start rest else s
  end.

(** The value of a character as a digit of some radix up to 36. *)
Definition digit_value (c : ascii) : option Z :=
  let u := code_unit c in
  if (48 <=? u) && (u <=? 57) then Some (u - 48)
  else if (97 <=? u) && (u <=? 122) then Some (u - 87)
  else if (65 <=? u) && (u <=? 90) then Some (u - 55)
  else None.

(** The mathematical integer written by the longest prefix of [s] made of
    digits of radix [R]; [acc] is [None] as long as no digit was read. *)
Fixpoint radix_prefix (R : Z) (s : string) (acc : option Z) : option Z :=
  match s with
  | EmptyString => acc
  | String c rest =>
      match digit_value c with
      | Some d =>
          if d <? R
          then radix_prefix R rest (Some (default 0 acc * R + d))
          else acc
      | None => acc
      end
  end.

(** A leading [-] or [+] is removed; [true] stands for [-]. *)
Definition strip_sign (s : string) : bool * string :=
  match s with
  | String "-"%char rest => (true, rest)
  | String "+"%char rest => (false, rest)
  | _ => (false, s)
  end.

(** Without a radix argument, [0x] or [0X] is removed and selects radix
    16; the radix is 10 otherwise. *)
Definition strip_prefix (s : string) : Z * string :=
  match s with
  | String "0"%char (String "x"%char rest) => (16, rest)
  | String "0"%char (String "X"%char rest) => (16, rest)
  | _ => (10, s)
  end.

(** The steps of [parseInt(s)] (no radix argument) up to the mathematical
    integer: leading white space is skipped, then a sign, then the
    prefix, then the digits. The result is [None] when there is no
    digit, and otherwise the sign ([true] for [-]) and the magnitude. *)
Definition parseInt_integer (s : string) : option (bool * Z) :=
  let '(negative, s2) := strip_sign (trim_start s) in
  let '(R, s3) := strip_prefix s2 in
  match radix_prefix R s3 None with
  | None => None
  | Some n => Some (negative, n)
  end.

(** [parseInt(s)]: [NaN] without digits, a signed zero for magnitude 0,
    and otherwise the Number value of the signed integer. *)
Definition parseInt (s : string) : JSNumber.t :=
  match parseInt_integer s with
  | None => JSNumber.NaN
  | Some (negative, 0) => S754_zero negative
  | Some (negative, n) => JSNumber.of_Z (if negative then - n else n)
  end.

End JSString.

(** ** Version 4 UUIDs *)

Module Uuid.

Local Open Scope N_scope.

Definition hex_digit (n : N) : ascii :=
  match n with
  | 0 => "0" | 1 => "1" | 2 => "2" | 3 => "3" | 4 => "4" | 5 => "5"
  | 6 => "6" | 7 => "7" | 8 => "8" | 9 => "9" | 10 => "a" | 11 => "b"
  | 12 => "c" | 13 => "d" | 14 => "e" | _ => "f"
  end%char.

(** Two lower-case hexadecimal digits for one byte. *)
Definition byte_to_hex (b : N) (k : string) : string :=
  String (hex_digit (N.land (N.shiftr b 4) 15)) (String (hex_digit (N.land b 15)) k).

(** Byte [i] (from the left, [0] to [15]) of the 128 random bits. *)
Definition rnd_byte (rnd : N) (i : N) : N :=
  N.land (N.shiftr rnd (8 * (15 - i))) 255.

(** [uuidv4()], given the 128 random bits it draws: the version nibble
    is forced to 4 and the variant bits to [10], and the sixteen bytes
    are printed as 8-4-4-4-12 hexadecimal digits. *)
Definition uuidv4 (rnd : N) : string :=
  let b := rnd_byte rnd in
  let b6 := N.lor (N.land (b 6) 15) 64 in
  let b8 := N.lor (N.land (b 8) 63) 128 in
  byte_to_hex (b 0) (byte_to_hex (b 1) (byte_to_hex (b 2) (byte_to_hex (b 3)
  (String "-" (byte_to_hex (b 4) (byte_to_hex (b 5)
  (String "-" (byte_to_hex b6 (byte_to_hex (b 7)
  (String "-" (byte_to_hex b8 (byte_to_hex (b 9)
  (String "-" (byte_to_hex (b 10) (byte_to_hex (b 11) (byte_to_hex (b 12)
  (byte_to_hex (b 13) (byte_to_hex (b 14) (byte_to_hex (b 15)
  EmptyString))))))))))))))))))).

End Uuid.

(** ** Token records and the token store *)

(** The three values the program gives to [status]. *)
Inductive Status : Type :=
  | Pending     (* "대기 중", line 63 *)
  | Expired     (* "만료됨", line 118 *)
  | Verified.   (* "인증 성공", line 163 *)

Global Instance Status_eq_dec : EqDecision Status.
Proof. solve_decision. Defined.

(** The object stored under a token (line 65). *)
Record TokenRecord : Type := mkTokenRecord {
  phoneNumber : string;
  expiresAt : JSNumber.t;
  isValid : bool;
  purpose : string;
  device_id : string;
  status : Status
}.

(** [qrTokenStore]: the own properties of the object. *)
Abbreviation Store := (gmap string TokenRecord).

(** The names every object literal inherits from [Object.prototype]. *)
Definition object_prototype_names : list string :=
  [ "constructor"; "__defineGetter__"; "__defineSetter__"; "hasOwnProperty";
    "__lookupGetter__"; "__lookupSetter__"; "isPrototypeOf";
    "propertyIsEnumerable"; "toString"; "valueOf"; "__proto__";
    "toLocaleString" ]%string.

(** What [qrTokenStore[token]] evaluates to: a stored record, a member of
    [Object.prototype] (a function or the prototype itself, all truthy
    and none with a field of a record), or [undefined]. *)
Inductive Property : Type :=
  | Own (r : TokenRecord)
  | Inherited
  | Undefined.

Definition get_property (store : Store) (token : string) : Property :=
  match store !! token with
  | Some r => Own r
  | None =>
      if bool_decide (token ∈ object_prototype_names) then Inherited
      else Undefined
  end.

(** [tokenData.isValid = false; tokenData.status = ...] on the record
    stored under [token]. *)
Definition invalidate (s : Status) (r : TokenRecord) : TokenRecord :=
  {| phoneNumber := phoneNumber r;
     expiresAt := expiresAt r;
     isValid := false;
     purpose := purpose r;
     device_id := device_id r;
     status := s |}.

(** ** What the libraries answer, and what a handler answers *)

(** The errors a library call rejects with, as far as the handlers look
    at them: [axios.isAxiosError(error)], [error.message] and
    [error.response?.data]. *)
Record JsError : Type := mkJsError {
  isAxiosError : bool;
  message : string;
  response_data : option string
}.

(** The settled result of an awaited call. *)
Inductive Settled (A : Type) : Type :=
  | Fulfilled (value : A)
  | RejectedWith (error : JsError).
Arguments Fulfilled {A} value.
Arguments RejectedWith {A} error.

(** The fixed texts and pages a handler sends. *)
Inductive Body : Type :=
  | AskForPhoneAndTime
      (* line 52: '전화번호와 유효시간을 모두 입력해주세요.' *)
  | AxiosFailureText (msg : string) (detail : option string)
      (* line 89: `서버 오류: ${error.message} (상세: ${...})`; [detail] is
         [None] where the text falls back on '응답 없음' *)
  | ServerErrorText
      (* line 92: '서버 오류가 발생했습니다.' *)
  | ResultPage (qrImage phone : string)
      (* line 85: the view 'result' *)
  | NoTokenText
      (* line 106: '인증 토큰이 없습니다.' *)
  | InvalidCodeText
      (* line 114: '유효하지 않은 QR 코드입니다.' *)
  | ExpiredCodeText
      (* line 119: '만료된 QR 코드입니다.' *)
  | UsedCodeText
      (* line 122: '이미 사용된 QR 코드입니다.' *)
  | UsedCodeStatusText (s : Status)
      (* line 125: `이미 사용된 QR 코드입니다 (상태: ${tokenData.status}).` *)
  | SuccessPage (phone : string).
      (* line 165: the page '인증 성공' that greets [phone] *)

(** What leaves a handler that throws: the [Error] built on line 140 from
    the message of the failed fetch, or the error of a rejected call which
    nothing catches. *)
Inductive Exception : Type :=
  | IdUndeterminedError (cause : string)
      (* line 140: new Error(`외부 DB 목록을 가져오지 못해 새 ID를 결정할 수
         없습니다: ${getError.message}`) *)
  | Uncaught (e : JsError).

(** A handler either sends a response, with a status code, or its promise
    rejects and the handler has sent nothing. *)
Inductive Outcome : Type :=
  | Responded (code : nat) (body : Body)
  | Threw (e : Exception).

(** The status code the handler gave the caller, if it gave one. *)
Definition caller_status (o : Outcome) : option nat :=
  match o with
  | Responded code _ => Some code
  | Threw _ => None
  end.

(** ** Issuance: [app.post('/generate-qr')] *)

(** The two fields read from [req.body]; [None] is [undefined]. *)
Record GenerateRequest : Type := mkGenerateRequest {
  body_phoneNumber : option string;
  body_validTime : option string
}.

(** The argument of [messageService.sendOne]; [sms_link] is the URL that
    ends the fixed text of the message. *)
Record SmsMessage : Type := mkSmsMessage {
  sms_to : string;
  sms_from : option string;
  sms_link : string
}.

(** The surroundings of one issuance: configuration, clock, the random
    bits of the token, and the answers of the QR and SMS libraries. *)
Record GenerateEnv : Type := mkGenerateEnv {
  PUBLIC_HOST : string;
  SENDER_NO : option string;
  gen_now : Z;
  gen_random : N;
  toDataURL : string -> Settled string;
  sendOne : SmsMessage -> Settled unit
}.

(** The [catch] block of the issuance handler (lines 86 to 93). *)
Definition generate_catch (error : JsError) : Outcome :=
  if isAxiosError error
  then Responded 500
         (AxiosFailureText (message error)
            (match response_data error with
             | Some (String c d) => Some (String c d)
             | _ => None
             end))
  else Responded 500 ServerErrorText.

(** The record built on lines 59 to 65. *)
Definition new_record (phone validTime : string) (now : Z) : TokenRecord :=
  {| phoneNumber := phone;
     expiresAt :=
       JSNumber.add (JSNumber.of_Z now)
         (JSNumber.mul
            (JSNumber.mul (JSString.parseInt validTime) (JSNumber.of_Z 60))
            (JSNumber.of_Z 1000));
     isValid := true;
     purpose := "Visitor";
     device_id := "device";
     status := Pending |}.

Definition authUrl (env : GenerateEnv) (token : string) : string :=
  (PUBLIC_HOST env +:+ "/verify-qr?token=" +:+ token)%string.

Definition generate_qr (store : Store) (req : GenerateRequest)
    (env : GenerateEnv) : Store * Outcome :=
  if JSString.falsy (body_phoneNumber req) || JSString.falsy (body_validTime req)
  then (store, Responded 400 AskForPhoneAndTime)
  else
    let phone := JSString.strip_hyphens (default EmptyString (body_phoneNumber req)) in
    let validTime := default EmptyString (body_validTime req) in
    let token := Uuid.uuidv4 (gen_random env) in
    let store' := <[token := new_record phone validTime (gen_now env)]> store in
    match toDataURL env (authUrl env token) with
    | RejectedWith error => (store', generate_catch error)
    | Fulfilled qrImageDataUrl =>
        match sendOne env {| sms_to := phone;
                             sms_from := SENDER_NO env;
                             sms_link := authUrl env token |} with
        | RejectedWith error => (store', generate_catch error)
        | Fulfilled _ => (store', Responded 200 (ResultPage qrImageDataUrl phone))
        end
    end.

(** ** Verification: [app.get('/verify-qr')] *)

(** [response.data] of the fetched listing, as far as lines 134 and 135
    look at it: [null], [undefined], an array, an object with or without
    a truthy [qr_events] (itself an array or not), or any other value. *)
Inductive Events : Type :=
  | EventArray (length : nat)
  | EventOther.

Inductive ResponseData : Type :=
  | DataNull
  | DataUndefined
  | DataArray (length : nat)
  | DataObject (qr_events : option Events)
  | DataOther.

(** The body posted to the event log (lines 147 to 157). *)
Record EventPayload : Type := mkEventPayload {
  client_device_id : string;
  data_phone : string;
  data_purpose : string;
  data_requested_at : string;
  data_status : Status
}.

(** The surroundings of one verification: the clock (as a time value and
    as the ISO text of line 129) and the answers of the event log. *)
Record VerifyEnv : Type := mkVerifyEnv {
  ver_now : Z;
  ver_timestamp : string;
  axios_get : Settled ResponseData;
  axios_post : EventPayload -> Settled unit
}.

(** The [try] block of lines 132 to 136: the length it logs, or the
    message of what it throws (the rejection of [axios.get], or the
    [TypeError] of reading [qr_events] of [null] or [undefined]). *)
Definition precheck (reply : Settled ResponseData) : string + nat :=
  match reply with
  | RejectedWith getError => inl (message getError)
  | Fulfilled DataNull =>
      inl "Cannot read properties of null (reading 'qr_events')"%string
  | Fulfilled DataUndefined =>
      inl "Cannot read properties of undefined (reading 'qr_events')"%string
  | Fulfilled (DataArray n) => inr n
  | Fulfilled (DataObject (Some (EventArray n))) => inr n
  | Fulfilled (DataObject _) => inr 0%nat
  | Fulfilled DataOther => inr 0%nat
  end.

Definition externalEventPayload (tokenData : TokenRecord)
    (currentTimestamp : string) : EventPayload :=
  {| client_device_id := device_id tokenData;
     data_phone := phoneNumber tokenData;
     data_purpose := purpose tokenData;
     data_requested_at := currentTimestamp;
     data_status := status tokenData |}.

(** The places where the handler ends: its [return]s, the [throw] of
    line 140, the rejection of the [await] of line 159, and its last
    line. *)
Inductive VerifyExit : Type :=
  | NoToken                         (* line 106 *)
  | UnknownToken                    (* line 114 *)
  | PastExpiry                      (* line 119 *)
  | NotValid                        (* line 122 *)
  | NotPending (s : Status)         (* line 125 *)
  | GetFailed (cause : string)      (* line 140 *)
  | PostFailed (e : JsError)        (* line 159 *)
  | Success (phone : string).       (* line 165 *)

(** The handler, up to the place where it ends, when no other request
    runs between its arrival and its end: the record read on line 110 is
    then still the stored one on lines 147 to 157 and 162 to 163. The
    handler whose [await]s let other requests in is [Live.step] below,
    and [scan_alone_is_atomic] shows that the two agree on a scan that
    nothing interrupts. A member of
    [Object.prototype] has neither [expiresAt] nor [isValid]: both read
    as [undefined], so that [Date.now() > undefined] is false and
    [!undefined] is true. *)
Definition verify_run (store : Store) (token : option string)
    (env : VerifyEnv) : Store * VerifyExit :=
  if JSString.falsy token then (store, NoToken)
  else
    let token := default EmptyString token in
    match get_property store token with
    | Undefined => (store, UnknownToken)
    | Inherited => (store, NotValid)
    | Own tokenData =>
        if JSNumber.gt (JSNumber.of_Z (ver_now env)) (expiresAt tokenData)
        then (<[token := invalidate Expired tokenData]> store, PastExpiry)
        else if negb (isValid tokenData) then (store, NotValid)
        else if negb (bool_decide (status tokenData = Pending))
        then (store, NotPending (status tokenData))
        else
          match precheck (axios_get env) with
          | inl cause => (store, GetFailed cause)
          | inr currentDbLength =>
              match axios_post env
                      (externalEventPayload tokenData (ver_timestamp env)) with
              | RejectedWith e => (store, PostFailed e)
              | Fulfilled _ =>
                  (<[token := invalidate Verified tokenData]> store,
                   Success (phoneNumber tokenData))
              end
          end
    end.

(** What the caller gets at each exit. *)
Definition outcome_of_exit (x : VerifyExit) : Outcome :=
  match x with
  | NoToken => Responded 400 NoTokenText
  | UnknownToken => Responded 404 InvalidCodeText
  | PastExpiry => Responded 410 ExpiredCodeText
  | NotValid => Responded 409 UsedCodeText
  | NotPending s => Responded 409 (UsedCodeStatusText s)
  | GetFailed cause => Threw (IdUndeterminedError cause)
  | PostFailed e => Threw (Uncaught e)
  | Success phone => Responded 200 (SuccessPage phone)
  end.

Definition verify_qr (store : Store) (token : option string)
    (env : VerifyEnv) : Store * Outcome :=
  let '(store', x) := verify_run store token env in
  (store', outcome_of_exit x).

(** The failure kinds of the taxonomy of the specification, and the kind
    of each place where the handler ends. *)
Inductive FailureKind : Type :=
  | BadRequest
  | NotFound
  | ExpiredKind
  | AlreadyConsumed
  | UpstreamUnavailable
  | SubmissionFailure.

Global Instance FailureKind_eq_dec : EqDecision FailureKind.
Proof. solve_decision. Defined.

Definition failure_kind (x : VerifyExit) : option FailureKind :=
  match x with
  | NoToken => Some BadRequest
  | UnknownToken => Some NotFound
  | PastExpiry => Some ExpiredKind
  | NotValid => Some AlreadyConsumed
  | NotPending _ => Some AlreadyConsumed
  | GetFailed _ => Some UpstreamUnavailable
  | PostFailed _ => Some SubmissionFailure
  | Success _ => None
  end.

(** The two kinds that come from the event log. *)
Definition upstream (k : FailureKind) : bool :=
  match k with
  | UpstreamUnavailable | SubmissionFailure => true
  | _ => false
  end.

(** ** Sequences of requests *)

Inductive Request : Type :=
  | Generate (req : GenerateRequest) (env : GenerateEnv)
  | Verify (token : option string) (env : VerifyEnv).

Definition handle (store : Store) (rq : Request) : Store * Outcome :=
  match rq with
  | Generate req env => generate_qr store req env
  | Verify token env => verify_qr store token env
  end.

(** The store after a sequence of requests, and the responses in order. *)
Fixpoint serve (store : Store) (rqs : list Request) : Store * list Outcome :=
  match rqs with
  | [] => (store, [])
  | rq :: rest =>
      let '(store1, o) := handle store rq in
      let '(store2, os) := serve store1 rest in
      (store2, o :: os)
  end.

(** [uuidv4] never returns a token twice: along the sequence, each
    issuance that stores a record draws a token the store does not hold. *)
Fixpoint fresh_tokens (store : Store) (rqs : list Request) : Prop :=
  match rqs with
  | [] => True
  | rq :: rest =>
      match rq with
      | Generate req env =>
          JSString.falsy (body_phoneNumber req) || JSString.falsy (body_validTime req) = false ->
          store !! Uuid.uuidv4 (gen_random env) = None
      | Verify _ _ => True
      end
      /\ fresh_tokens (fst (handle store rq)) rest
  end.

(** The order of the states of a record: [Pending] comes first, [Expired]
    and [Verified] after it. *)
Definition status_rank (s : Status) : nat :=
  match s with
  | Pending => 0
  | Expired => 1
  | Verified => 1
  end.

(** How a record may differ from an earlier state of the same record:
    the fields set at issuance are the same, [isValid] does not come back
    to [true], [status] does not come back to [Pending], a record that is
    [Pending] was not touched, and [status] is [Expired] only if it was or
    if some time value is past [expiresAt]. *)
Definition evolves (r r' : TokenRecord) : Prop :=
  phoneNumber r' = phoneNumber r
  /\ expiresAt r' = expiresAt r
  /\ purpose r' = purpose r
  /\ device_id r' = device_id r
  /\ (isValid r = false -> isValid r' = false)
  /\ (status_rank (status r) <= status_rank (status r'))%nat
  /\ (status r' = Pending -> r' = r)
  /\ (status r' = Expired ->
      status r = Expired
      \/ exists now, JSNumber.gt (JSNumber.of_Z now) (expiresAt r) = true).

(** ** The calls a handler makes

    The same two handlers, which also return the calls they make to the
    event log and to the delivery libraries, in the order of the source.
    Like [verify_run], [verify_io] is the verification handler that no
    other request interrupts; what it posts when other requests run
    between its [await]s is told by [Live.step]. *)

Inductive LogCall : Type :=
  | GetEvents                           (* line 133 *)
  | PostEvent (payload : EventPayload). (* line 159 *)

Definition verify_io (store : Store) (token : option string)
    (env : VerifyEnv) : Store * VerifyExit * list LogCall :=
  if JSString.falsy token then (store, NoToken, [])
  else
    let token := default EmptyString token in
    match get_property store token with
    | Undefined => (store, UnknownToken, [])
    | Inherited => (store, NotValid, [])
    | Own tokenData =>
        if JSNumber.gt (JSNumber.of_Z (ver_now env)) (expiresAt tokenData)
        then (<[token := invalidate Expired tokenData]> store, PastExpiry, [])
        else if negb (isValid tokenData) then (store, NotValid, [])
        else if negb (bool_decide (status tokenData = Pending))
        then (store, NotPending (status tokenData), [])
        else
          match precheck (axios_get env) with
          | inl cause => (store, GetFailed cause, [GetEvents])
          | inr currentDbLength =>
              let payload := externalEventPayload tokenData (ver_timestamp env) in
              match axios_post env payload with
              | RejectedWith e =>
                  (store, PostFailed e, [GetEvents; PostEvent payload])
              | Fulfilled _ =>
                  (<[token := invalidate Verified tokenData]> store,
                   Success (phoneNumber tokenData),
                   [GetEvents; PostEvent payload])
              end
          end
    end.

Inductive DeliveryCall : Type :=
  | RenderQr (url : string)       (* line 74 *)
  | SendSms (msg : SmsMessage).   (* line 78 *)

Definition generate_io (store : Store) (req : GenerateRequest)
    (env : GenerateEnv) : Store * Outcome * list DeliveryCall :=
  if JSString.falsy (body_phoneNumber req) || JSString.falsy (body_validTime req)
  then (store, Responded 400 AskForPhoneAndTime, [])
  else
    let phone := JSString.strip_hyphens (default EmptyString (body_phoneNumber req)) in
    let validTime := default EmptyString (body_validTime req) in
    let token := Uuid.uuidv4 (gen_random env) in
    let store' := <[token := new_record phone validTime (gen_now env)]> store in
    let url := authUrl env token in
    match toDataURL env url with
    | RejectedWith error => (store', generate_catch error, [RenderQr url])
    | Fulfilled qrImageDataUrl =>
        let msg := {| sms_to := phone;
                      sms_from := SENDER_NO env;
                      sms_link := url |} in
        match sendOne env msg with
        | RejectedWith error =>
            (store', generate_catch error, [RenderQr url; SendSms msg])
        | Fulfilled _ =>
            (store', Responded 200 (ResultPage qrImageDataUrl phone),
             [RenderQr url; SendSms msg])
        end
    end.

(** ** Vocabulary of the further properties *)

(** [response.data] on which line 134 throws. *)
Definition nullish (data : ResponseData) : bool :=
  match data with
  | DataNull | DataUndefined => true
  | _ => false
  end.

(** The same surroundings with another answer to the fetch. *)
Definition with_listing (env : VerifyEnv) (reply : Settled ResponseData)
    : VerifyEnv :=
  {| ver_now := ver_now env;
     ver_timestamp := ver_timestamp env;
     axios_get := reply;
     axios_post := axios_post env |}.

(** Whether a request is a scan of [token]. *)
Definition scans (token : string) (rq : Request) : bool :=
  match rq with
  | Verify (Some t) _ => bool_decide (t = token)
  | _ => false
  end.

Definition is_success (o : Outcome) : bool :=
  match o with
  | Responded code (SuccessPage _) => Nat.eqb code 200
  | _ => false
  end.

(** How many scans of [token] are answered with the success page along a
    sequence of requests. *)
Fixpoint verified_count (token : string) (store : Store)
    (rqs : list Request) : nat :=
  match rqs with
  | [] => 0
  | rq :: rest =>
      ((if scans token rq && is_success (snd (handle store rq)) then 1 else 0)
       + verified_count token (fst (handle store rq)) rest)%nat
  end.

Definition is_generate (rq : Request) : bool :=
  match rq with
  | Generate _ _ => true
  | Verify _ _ => false
  end.

(** The characters of a token. *)
Definition token_char (c : ascii) : bool :=
  let u := JSString.code_unit c in
  ((48 <=? u) && (u <=? 57)) || ((97 <=? u) && (u <=? 102)) || (u =? 45).

(** What holds of every record the handlers store, and of every store
    they build. *)
Definition record_wf (r : TokenRecord) : Prop :=
  (isValid r = true <-> status r = Pending)
  /\ purpose r = "Visitor"%string
  /\ device_id r = "device"%string
  /\ ~ In "-"%char (list_ascii_of_string (phoneNumber r)).

Definition store_wf (store : Store) : Prop :=
  forall token r,
    store !! token = Some r ->
    (exists rnd, token = Uuid.uuidv4 rnd) /\ record_wf r.

(** The decimal numeral of a natural number, as it is typed in the form
    of the test page. *)
Definition decimal (n : N) : string := NilZero.string_of_uint (N.to_uint n).

(** ** The failure causes, in the words of the specification

    The cause for which a verification fails, read off the store and the
    surroundings as sections 4.2 and 7 of the specification word it, not
    off the place where the handler ends: no token was given; no record
    is stored for the token; the time is past [expiresAt]; the record is no
    longer valid or no longer [Pending]; the fetch of the listing fails; the
    submission of the event fails. *)
Definition failure_cause (store : Store) (token : option string)
    (env : VerifyEnv) : option FailureKind :=
  match token with
  | None | Some EmptyString => Some BadRequest
  | Some token =>
      match store !! token with
      | None => Some NotFound
      | Some r =>
          if JSNumber.gt (JSNumber.of_Z (ver_now env)) (expiresAt r)
          then Some ExpiredKind
          else if negb (isValid r) || negb (bool_decide (status r = Pending))
          then Some AlreadyConsumed
          else
            match precheck (axios_get env) with
            | inl _ => Some UpstreamUnavailable
            | inr _ =>
                match axios_post env (externalEventPayload r (ver_timestamp env)) with
                | RejectedWith _ => Some SubmissionFailure
                | Fulfilled _ => None
                end
            end
      end
  end.

(** A token that is not the name of a member of [Object.prototype]. *)
Definition not_inherited (token : option string) : Prop :=
  forall t, token = Some t -> t ∉ object_prototype_names.

(** ** The handlers between their awaits

    The verification handler is an [async] function: it runs from the
    arrival of the request to the [await] of line 133, from there to the
    [await] of line 159, and from there to its end, and other requests run
    in between. [tokenData] is a reference to the stored object, which the
    handler reads again after each [await]. Here the record objects live
    at addresses, [qrTokenStore] maps tokens to addresses, and a request
    that waits at an [await] keeps the address it read on line 110. The
    issuance handler writes the store on line 65, before its first
    [await], and does not read it afterwards: it acts in one step. *)

Module Live.

Record World : Type := mkWorld {
  objects : nat -> TokenRecord;
  next : nat;
  slots : gmap string nat
}.

(** What an address holds before an object is allocated there. *)
Definition blank : TokenRecord := new_record EmptyString EmptyString 0.

Definition empty : World :=
  {| objects := fun _ => blank; next := 0; slots := ∅ |}.

(** The store as the handlers that run alone see it. *)
Definition view (w : World) : Store := objects w <$> slots w.

(** A write to the fields of the object at [a]. *)
Definition set_object (w : World) (a : nat) (r : TokenRecord) : World :=
  {| objects := fun b => if decide (b = a) then r else objects w b;
     next := next w;
     slots := slots w |}.

(** [qrTokenStore[token] = { ... }]: a new object, and the slot of [token]
    pointing to it. *)
Definition alloc (w : World) (token : string) (r : TokenRecord) : World :=
  {| objects := fun b => if decide (b = next w) then r else objects w b;
     next := S (next w);
     slots := <[token := next w]> (slots w) |}.

(** A request that waits: at the fetch of line 133, with [tokenData] and
    the [currentTimestamp] of line 129, or at the submission of line 159,
    with [tokenData] and the payload it has posted. *)
Inductive Parked : Type :=
  | AtGet (token : string) (tokenData : nat) (currentTimestamp : string)
  | AtPost (token : string) (tokenData : nat) (payload : EventPayload).

(** What can be observed of the handlers. *)
Inductive Action : Type :=
  | Fetch (id : nat)
  | Post (id : nat) (payload : EventPayload)
  | Respond (id : nat) (token : option string) (x : VerifyExit)
  | RespondIssue (o : Outcome).

(** Lines 102 to 133: from the arrival of the request to its first
    [await], or to its response. *)
Definition arrive (w : World) (token : option string) (now : Z)
    (currentTimestamp : string) : World * (VerifyExit + Parked) :=
  if JSString.falsy token then (w, inl NoToken)
  else
    let token := default EmptyString token in
    match slots w !! token with
    | None =>
        if bool_decide (token ∈ object_prototype_names)
        then (w, inl NotValid)
        else (w, inl UnknownToken)
    | Some a =>
        let tokenData := objects w a in
        if JSNumber.gt (JSNumber.of_Z now) (expiresAt tokenData)
        then (set_object w a (invalidate Expired tokenData), inl PastExpiry)
        else if negb (isValid tokenData) then (w, inl NotValid)
        else if negb (bool_decide (status tokenData = Pending))
        then (w, inl (NotPending (status tokenData)))
        else (w, inr (AtGet token a currentTimestamp))
    end.

(** The store effect of an issuance (lines 49 to 65). *)
Definition issue (w : World) (req : GenerateRequest) (env : GenerateEnv) : World :=
  if JSString.falsy (body_phoneNumber req) || JSString.falsy (body_validTime req)
  then w
  else
    alloc w (Uuid.uuidv4 (gen_random env))
      (new_record (JSString.strip_hyphens (default EmptyString (body_phoneNumber req)))
         (default EmptyString (body_validTime req)) (gen_now env)).

Record System : Type := mkSystem {
  world : World;
  waiting : gmap nat Parked
}.

(** What happens next: a scan arrives, under an identifier that names it
    while it is in flight; the fetch or the submission of a waiting scan
    settles; an issuance is handled. *)
Inductive Event : Type :=
  | Arrives (id : nat) (token : option string) (now : Z) (currentTimestamp : string)
  | GetSettles (id : nat) (reply : Settled ResponseData)
  | PostSettles (id : nat) (respond : EventPayload -> Settled unit)
  | Issues (req : GenerateRequest) (env : GenerateEnv).

Definition step (sys : System) (ev : Event) : System * list Action :=
  match ev with
  | Arrives id token now currentTimestamp =>
      match waiting sys !! id with
      | Some _ => (sys, [])
      | None =>
          match arrive (world sys) token now currentTimestamp with
          | (w, inl x) =>
              ({| world := w; waiting := waiting sys |}, [Respond id token x])
          | (w, inr parked) =>
              ({| world := w; waiting := <[id := parked]> (waiting sys) |},
               [Fetch id])
          end
      end
  | GetSettles id reply =>
      (* lines 134 to 159 *)
      match waiting sys !! id with
      | Some (AtGet token a currentTimestamp) =>
          match precheck reply with
          | inl cause =>
              ({| world := world sys; waiting := delete id (waiting sys) |},
               [Respond id (Some token) (GetFailed cause)])
          | inr currentDbLength =>
              let payload :=
                externalEventPayload (objects (world sys) a) currentTimestamp in
              ({| world := world sys;
                  waiting := <[id := AtPost token a payload]> (waiting sys) |},
               [Post id payload])
          end
      | _ => (sys, [])
      end
  | PostSettles id respond =>
      (* lines 160 to 167 *)
      match waiting sys !! id with
      | Some (AtPost token a payload) =>
          match respond payload with
          | RejectedWith e =>
              ({| world := world sys; waiting := delete id (waiting sys) |},
               [Respond id (Some token) (PostFailed e)])
          | Fulfilled _ =>
              let tokenData := objects (world sys) a in
              ({| world := set_object (world sys) a (invalidate Verified tokenData);
                  waiting := delete id (waiting sys) |},
               [Respond id (Some token) (Success (phoneNumber tokenData))])
          end
      | _ => (sys, [])
      end
  | Issues req env =>
      ({| world := issue (world sys) req env; waiting := waiting sys |},
       [RespondIssue (snd (generate_qr (view (world sys)) req env))])
  end.

Fixpoint run (sys : System) (events : list Event) : System * list Action :=
  match events with
  | [] => (sys, [])
  | ev :: rest =>
      let '(sys1, out1) := step sys ev in
      let '(sys2, out2) := run sys1 rest in
      (sys2, out1 ++ out2)
  end.

(** The three events of a scan that no other event interrupts. *)
Definition alone (id : nat) (token : option string) (env : VerifyEnv)
    : list Event :=
  [ Arrives id token (ver_now env) (ver_timestamp env);
    GetSettles id (axios_get env);
    PostSettles id (axios_post env) ].



(** The statuses of the events that are posted. *)
Definition posted_statuses (out : list Action) : list Status :=
  omap (fun act => match act with
                   | Post _ payload => Some (data_status payload)
                   | _ => None
                   end) out.

(** Every slot holds an allocated address, and no two slots the same
    one. *)
Definition wf (w : World) : Prop :=
  (forall t a, slots w !! t = Some a -> (a < next w)%nat)
  /\ (forall t1 t2 a, slots w !! t1 = Some a -> slots w !! t2 = Some a -> t1 = t2).

(** Every waiting scan holds an allocated address. *)
Definition parked_address (p : Parked) : nat :=
  match p with
  | AtGet _ a _ => a
  | AtPost _ a _ => a
  end.


Definition sound (sys : System) : Prop :=
  wf (world sys)
  /\ forall id p, waiting sys !! id = Some p ->
                  (parked_address p < next (world sys))%nat.


(** The fields of a record that no handler writes after the issuance. *)
Definition visitor_record (r : TokenRecord) : Prop :=
  purpose r = "Visitor"%string
  /\ device_id r = "device"%string
  /\ ~ In "-"%char (list_ascii_of_string (phoneNumber r)).

(** The server as it starts: line 32, and no request yet. *)
Definition start : System := {| world := empty; waiting := ∅ |}.



End Live.

(** ** Sample requests

    Concrete stores, requests and surroundings on which the statements
    below are instantiated. *)

Module Sample.

Local Open Scope string_scope.

(** A token drawn by [uuidv4]. *)
Definition token : string := Uuid.uuidv4 7.

(** A record issued at time 1000 for five minutes. *)
Definition record : TokenRecord := new_record "01012345678" "5" 1000.

Definition store : Store := {[ token := record ]}.

Definition network_error : JsError :=
  {| isAxiosError := true; message := "Network Error"; response_data := None |}.

(** The event log answers both calls. *)
Definition log_up (now : Z) : VerifyEnv :=
  {| ver_now := now;
     ver_timestamp := "1970-01-01T00:00:02.000Z";
     axios_get := Fulfilled (DataObject (Some (EventArray 3)));
     axios_post := fun _ => Fulfilled tt |}.

(** The event log cannot be read. *)
Definition log_unreadable (now : Z) : VerifyEnv :=
  {| ver_now := now;
     ver_timestamp := "1970-01-01T00:00:02.000Z";
     axios_get := RejectedWith network_error;
     axios_post := fun _ => Fulfilled tt |}.

(** The event log can be read but refuses the new event. *)
Definition log_unwritable (now : Z) : VerifyEnv :=
  {| ver_now := now;
     ver_timestamp := "1970-01-01T00:00:02.000Z";
     axios_get := Fulfilled (DataArray 3);
     axios_post := fun _ => RejectedWith network_error |}.

Definition form (phone validTime : string) : GenerateRequest :=
  {| body_phoneNumber := Some phone; body_validTime := Some validTime |}.

(** Rendering and delivery both work. *)
Definition delivery_up (now : Z) (rnd : N) : GenerateEnv :=
  {| PUBLIC_HOST := "http://localhost:3000";
     SENDER_NO := Some "0212345678";
     gen_now := now;
     gen_random := rnd;
     toDataURL := fun url => Fulfilled ("data:image/png;base64," +:+ url);
     sendOne := fun _ => Fulfilled tt |}.

(** The SMS provider rejects the message. *)
Definition sms_down (now : Z) (rnd : N) : GenerateEnv :=
  {| PUBLIC_HOST := "http://localhost:3000";
     SENDER_NO := Some "0212345678";
     gen_now := now;
     gen_random := rnd;
     toDataURL := fun url => Fulfilled ("data:image/png;base64," +:+ url);
     sendOne := fun _ =>
       RejectedWith {| isAxiosError := false; message := "send failed";
                       response_data := None |} |}.

(** The QR image cannot be rendered. *)
Definition qr_down (now : Z) (rnd : N) : GenerateEnv :=
  {| PUBLIC_HOST := "http://localhost:3000";
     SENDER_NO := Some "0212345678";
     gen_now := now;
     gen_random := rnd;
     toDataURL := fun _ =>
       RejectedWith {| isAxiosError := false; message := "no image";
                       response_data := None |};
     sendOne := fun _ => Fulfilled tt |}.

(** The sample store as a world with one object, and no scan in flight. *)
Definition live_world : Live.World :=
  Live.alloc Live.empty token record.

Definition live_system : Live.System :=
  {| Live.world := live_world; Live.waiting := ∅ |}.

(** Two scans of the sample token: the second one arrives while the
    first one waits for the listing of the event log. *)
Definition overlapping_scans : list Live.Event :=
  [ Live.Arrives 1 (Some token) 2000 "1970-01-01T00:00:02.000Z";
    Live.Arrives 2 (Some token) 2001 "1970-01-01T00:00:02.001Z";
    Live.GetSettles 1 (Fulfilled (DataArray 3));
    Live.PostSettles 1 (fun _ => Fulfilled tt);
    Live.GetSettles 2 (Fulfilled (DataArray 4));
    Live.PostSettles 2 (fun _ => Fulfilled tt) ].

(** The same two scans, the second one arriving after the response to
    the first one. *)
Definition successive_scans : list Live.Event :=
  Live.alone 1 (Some token) (log_up 2000)
  ++ Live.alone 2 (Some token) (log_up 2001).

End Sample.

(** * Properties *)

(** ** Arithmetic of Numbers on the integers that fit the mantissa *)

Module JSNumberFacts.
Import JSNumber.

Lemma digits2_pos_size p : digits2_pos p = Pos.size p.
Proof. induction p; simpl; congruence. Qed.

Lemma Zdigits2_log2 z : 0 < z -> Zdigits2 z = Z.log2 z + 1.
Proof.
  destruct z as [|p|p]; try lia. intros _. simpl.
  destruct p; simpl; rewrite ?digits2_pos_size; lia.
Qed.

Lemma shr_1_double z :
  shr_1 (Build_shr_record (2 * z) false false) = Build_shr_record z false false.
Proof. destruct z as [|p|p]; reflexivity. Qed.

Lemma iter_shr_1_pow2 p : forall z,
  SpecFloat.iter_pos shr_1 p (Build_shr_record (z * 2 ^ Zpos p) false false)
  = Build_shr_record z false false.
Proof.
  induction p as [p IH|p IH|]; intros z; cbn [SpecFloat.iter_pos].
  - replace (z * 2 ^ Z.pos p~1) with (2 * ((z * 2 ^ Zpos p) * 2 ^ Zpos p)).
    + rewrite shr_1_double, IH, IH. reflexivity.
    + replace (Z.pos p~1) with (1 + Z.pos p + Z.pos p) by lia.
      rewrite !Z.pow_add_r by lia. ring.
  - replace (z * 2 ^ Z.pos p~0) with ((z * 2 ^ Zpos p) * 2 ^ Zpos p).
    + rewrite IH, IH. reflexivity.
    + replace (Z.pos p~0) with (Z.pos p + Z.pos p) by lia.
      rewrite Z.pow_add_r by lia. ring.
  - rewrite Z.pow_1_r, Z.mul_comm. apply shr_1_double.
Qed.

Lemma fexp_small e : -1021 <= e -> fexp prec emax e = e - 53.
Proof. unfold fexp, SpecFloat.emin, prec, emax. lia. Qed.

Lemma log2_shift z k : 0 < z -> 0 <= k -> Z.log2 (z * 2 ^ k) = Z.log2 z + k.
Proof. intros. rewrite Z.log2_mul_pow2 by lia. lia. Qed.

Lemma binary_round_aux_exact s z k :
  0 < z -> Z.log2 z < 53 -> 52 - Z.log2 z <= k ->
  binary_round_aux prec emax s (z * 2 ^ k) (- k) loc_Exact = normal s z.
Proof.
  intros Hz Hl Hk.
  pose proof (Z.log2_nonneg z) as Hl0.
  assert (Hk0 : 0 <= k) by lia.
  assert (Hpos : 0 < z * 2 ^ k) by (apply Z.mul_pos_pos; [lia | apply Z.pow_pos_nonneg; lia]).
  unfold binary_round_aux, shr_fexp.
  rewrite Zdigits2_log2, log2_shift by lia.
  rewrite fexp_small by lia.
  replace (Z.log2 z + k + 1 + - k - 53 - - k) with (k - (52 - Z.log2 z)) by lia.
  assert (Hsplit : z * 2 ^ k = (z * 2 ^ (52 - Z.log2 z)) * 2 ^ (k - (52 - Z.log2 z))).
  { rewrite <- Z.mul_assoc, <- Z.pow_add_r by lia. do 2 f_equal. lia. }
  set (d := k - (52 - Z.log2 z)) in *.
  set (m := z * 2 ^ (52 - Z.log2 z)) in *.
  assert (Hm : 0 < m) by (apply Z.mul_pos_pos; [lia | apply Z.pow_pos_nonneg; lia]).
  assert (Hlm : Z.log2 m = 52) by (unfold m; rewrite log2_shift by lia; lia).
  assert (Hfirst : shr (shr_record_of_loc (z * 2 ^ k) loc_Exact) (- k) d
                   = (Build_shr_record m false false, Z.log2 z - 52)).
  { unfold shr, shr_record_of_loc. destruct d as [|p|p] eqn:Hd; try lia.
    - rewrite Hsplit, Z.pow_0_r, Z.mul_1_r. f_equal. lia.
    - rewrite Hsplit, iter_shr_1_pow2. f_equal. lia. }
  rewrite Hfirst. cbn [shr_m loc_of_shr_record round_nearest_even].
  rewrite Zdigits2_log2, Hlm by lia.
  rewrite fexp_small by lia.
  replace (52 + 1 + (Z.log2 z - 52) - 53 - (Z.log2 z - 52)) with 0 by lia.
  cbn [shr shr_record_of_loc shr_m].
  destruct m as [|p|p] eqn:Em; try lia.
  replace (Z.log2 z - 52 <=? emax - prec) with true
    by (symmetry; apply Z.leb_le; unfold emax, prec; lia).
  unfold normal. fold m. rewrite Em. reflexivity.
Qed.

Lemma Zpos_iter_xO m d : Zpos (Pos.iter xO m d) = Zpos m * 2 ^ Zpos d.
Proof.
  rewrite (Pos.iter_swap_gen _ _ Zpos xO (Z.mul 2)) by reflexivity.
  change (Pos.iter (Z.mul 2) (Z.pos m) d) with (Z.shiftl (Zpos m) (Zpos d)).
  apply Z.shiftl_mul_pow2. lia.
Qed.

Lemma shl_align_value mx ex ex' :
  ex' <= ex ->
  Zpos (fst (shl_align mx ex ex')) = Zpos mx * 2 ^ (ex - ex')
  /\ snd (shl_align mx ex ex') = ex'.
Proof.
  intros H. unfold shl_align. destruct (ex' - ex) as [|p|p] eqn:E; try lia; cbn [fst snd].
  - replace (ex - ex') with 0 by lia. rewrite Z.mul_1_r. split; lia.
  - rewrite Zpos_iter_xO. replace (ex - ex') with (Zpos p) by lia. split; reflexivity.
Qed.

Lemma binary_round_exact s z k mx :
  0 < z -> Z.log2 z < 53 -> 0 <= k -> Zpos mx = z * 2 ^ k ->
  binary_round prec emax s mx (- k) = normal s z.
Proof.
  intros Hz Hl Hk Hmx.
  pose proof (Z.log2_nonneg z) as Hl0.
  unfold binary_round.
  change (Z.pos (digits2_pos mx)) with (Zdigits2 (Zpos mx)).
  rewrite Zdigits2_log2, Hmx, log2_shift by lia.
  rewrite fexp_small by lia.
  destruct (Z_le_gt_dec (52 - Z.log2 z) k) as [Hle|Hgt].
  - unfold shl_align.
    destruct (Z.log2 z + k + 1 + - k - 53 - - k) as [|p|p] eqn:E; try lia;
      rewrite Hmx; apply binary_round_aux_exact; lia.
  - destruct (shl_align_value mx (- k) (Z.log2 z + k + 1 + - k - 53)) as [Hv He]; [lia|].
    destruct (shl_align mx (- k) (Z.log2 z + k + 1 + - k - 53)) as [mz ez].
    cbn [fst snd] in Hv, He. subst ez. rewrite Hv, Hmx.
    replace (Z.log2 z + k + 1 + - k - 53) with (- (52 - Z.log2 z)) by lia.
    replace (z * 2 ^ k * 2 ^ (- k - - (52 - Z.log2 z))) with (z * 2 ^ (52 - Z.log2 z)).
    + apply binary_round_aux_exact; lia.
    + rewrite <- Z.mul_assoc, <- Z.pow_add_r by lia. do 2 f_equal. lia.
Qed.

Lemma of_Z_normal z : 0 < z -> z < 2 ^ 53 -> of_Z z = normal false z.
Proof.
  intros Hz Hlt. unfold of_Z.
  destruct z as [|p|p]; try lia. cbn [binary_normalize].
  apply (binary_round_exact false (Zpos p) 0 p); try lia.
  apply Z.log2_lt_pow2; lia.
Qed.

Lemma normal_mantissa z :
  0 < z -> Z.log2 z < 53 -> Zpos (Z.to_pos (z * 2 ^ (52 - Z.log2 z))) = z * 2 ^ (52 - Z.log2 z).
Proof.
  intros. apply Z2Pos.id. apply Z.mul_pos_pos; [lia | apply Z.pow_pos_nonneg; lia].
Qed.

Lemma mul_normal sa sb a b :
  0 < a -> 0 < b -> a * b < 2 ^ 53 ->
  mul (normal sa a) (normal sb b) = normal (xorb sa sb) (a * b).
Proof.
  intros Ha Hb Hab.
  pose proof (Z.log2_nonneg a). pose proof (Z.log2_nonneg b).
  assert (Hla : Z.log2 a < 53) by (apply Z.log2_lt_pow2; nia).
  assert (Hlb : Z.log2 b < 53) by (apply Z.log2_lt_pow2; nia).
  assert (Hlab : Z.log2 (a * b) < 53) by (apply Z.log2_lt_pow2; nia).
  pose proof (Z.log2_mul_below a b Ha Hb) as Hbelow.
  unfold mul, normal at 1 2. cbn [SFmul].
  rewrite Pos2Z.inj_mul, !normal_mantissa by lia.
  replace (Z.log2 a - 52 + (Z.log2 b - 52)) with (- (104 - Z.log2 a - Z.log2 b)) by lia.
  replace (a * 2 ^ (52 - Z.log2 a) * (b * 2 ^ (52 - Z.log2 b)))
    with ((a * b) * 2 ^ (104 - Z.log2 a - Z.log2 b)).
  - apply binary_round_aux_exact; nia.
  - replace (104 - Z.log2 a - Z.log2 b) with ((52 - Z.log2 a) + (52 - Z.log2 b)) by lia.
    rewrite Z.pow_add_r by lia. ring.
Qed.

Lemma add_normal a b :
  0 < a -> 0 < b -> a + b < 2 ^ 53 ->
  add (normal false a) (normal false b) = normal false (a + b).
Proof.
  intros Ha Hb Hab.
  pose proof (Z.log2_nonneg a). pose proof (Z.log2_nonneg b).
  assert (Hla : Z.log2 a < 53) by (apply Z.log2_lt_pow2; lia).
  assert (Hlb : Z.log2 b < 53) by (apply Z.log2_lt_pow2; lia).
  assert (Hlab : Z.log2 (a + b) < 53) by (apply Z.log2_lt_pow2; lia).
  unfold add, normal at 1 2. cbn [SFadd cond_Zopp].
  set (ez := Z.min (Z.log2 a - 52) (Z.log2 b - 52)).
  destruct (shl_align_value (Z.to_pos (a * 2 ^ (52 - Z.log2 a))) (Z.log2 a - 52) ez) as [Va _]; [lia|].
  destruct (shl_align_value (Z.to_pos (b * 2 ^ (52 - Z.log2 b))) (Z.log2 b - 52) ez) as [Vb _]; [lia|].
  rewrite Va, Vb, !normal_mantissa by lia.
  assert (Hsum : a * 2 ^ (52 - Z.log2 a) * 2 ^ (Z.log2 a - 52 - ez)
                 + b * 2 ^ (52 - Z.log2 b) * 2 ^ (Z.log2 b - 52 - ez)
                 = (a + b) * 2 ^ (- ez)).
  { rewrite <- !Z.mul_assoc, <- !Z.pow_add_r by lia.
    replace (52 - Z.log2 a + (Z.log2 a - 52 - ez)) with (- ez) by lia.
    replace (52 - Z.log2 b + (Z.log2 b - 52 - ez)) with (- ez) by lia.
    ring. }
  rewrite Hsum.
  assert (Hp : 0 < (a + b) * 2 ^ (- ez))
    by (apply Z.mul_pos_pos; [lia | apply Z.pow_pos_nonneg; lia]).
  destruct ((a + b) * 2 ^ (- ez)) as [|p|p] eqn:Ep; try lia.
  cbn [binary_normalize].
  replace ez with (- (- ez)) at 1 by lia.
  apply binary_round_exact with (z := a + b); lia.
Qed.

(** A comparison with [NaN] is false. *)
Lemma gt_NaN_r x : gt x NaN = false.
Proof. destruct x; reflexivity. Qed.

Lemma add_NaN_r x : add x NaN = NaN.
Proof. destruct x; reflexivity. Qed.

Lemma mul_NaN_l y : mul NaN y = NaN.
Proof. reflexivity. Qed.

(** On non-negative integers whose results stay below [2 ^ 53], the sum
    and the product of Numbers are the sum and the product of
    integers. *)
Lemma mul_of_Z a b :
  0 <= a <= max_safe_integer -> 0 <= b <= max_safe_integer ->
  a * b <= max_safe_integer ->
  mul (of_Z a) (of_Z b) = of_Z (a * b).
Proof.
  unfold max_safe_integer. intros Ha Hb Hab.
  destruct (Z.eq_dec a 0) as [->|Ha0]; [|destruct (Z.eq_dec b 0) as [->|Hb0]].
  - destruct (Z.eq_dec b 0) as [->|Hb0]; [reflexivity|].
    rewrite (of_Z_normal b) by lia. reflexivity.
  - rewrite Z.mul_0_r, (of_Z_normal a) by lia. reflexivity.
  - rewrite !of_Z_normal by nia.
    apply (mul_normal false false); nia.
Qed.

Lemma add_of_Z a b :
  0 <= a -> 0 <= b -> a + b <= max_safe_integer ->
  add (of_Z a) (of_Z b) = of_Z (a + b).
Proof.
  unfold max_safe_integer. intros Ha Hb Hab.
  destruct (Z.eq_dec a 0) as [->|Ha0]; [|destruct (Z.eq_dec b 0) as [->|Hb0]].
  - destruct (Z.eq_dec b 0) as [->|Hb0]; [reflexivity|].
    rewrite Z.add_0_l, (of_Z_normal b) by lia. reflexivity.
  - rewrite Z.add_0_r, of_Z_normal by lia. reflexivity.
  - rewrite !of_Z_normal by lia. apply add_normal; lia.
Qed.

(** Among the positive safe integers, a later time value is past every
    Number that an earlier one is past. *)
Lemma gt_of_Z_mono a b x :
  0 < a -> a <= b -> b <= max_safe_integer ->
  gt (of_Z a) x = true -> gt (of_Z b) x = true.
Proof.
  unfold max_safe_integer. intros Ha Hab Hb.
  rewrite !of_Z_normal by lia. unfold gt, SFltb, normal.
  pose proof (Z.log2_le_mono a b Hab) as Hlog.
  pose proof (Z.log2_nonneg a) as Hla.
  assert (Hlb : Z.log2 b < 53) by (apply Z.log2_lt_pow2; lia).
  destruct x as [s|s| |s m e]; cbn [SFcompare]; try done.
  destruct s; [done|].
  destruct (Z.compare_spec e (Z.log2 a - 52)) as [He|He|He]; [| |done].
  - destruct (Z.compare_spec e (Z.log2 b - 52)) as [He'|He'|He']; [|done|lia].
    rewrite !Pos.compare_cont_spec. cbn [Pos.switch_Eq].
    rewrite !Pos2Z.inj_compare, !normal_mantissa by lia.
    replace (Z.log2 b) with (Z.log2 a) by lia.
    destruct (Z.compare_spec (Z.pos m) (a * 2 ^ (52 - Z.log2 a))) as [Hm|Hm|Hm];
      try done.
    intros _.
    assert (0 < 2 ^ (52 - Z.log2 a)) by (apply Z.pow_pos_nonneg; lia).
    destruct (Z.compare_spec (Z.pos m) (b * 2 ^ (52 - Z.log2 a))) as [Hm'|Hm'|Hm'];
      [nia | done | nia].
  - intros _. destruct (Z.compare_spec e (Z.log2 b - 52)); [lia | done | lia].
Qed.

(** Among the non-negative safe integers, [>] on Numbers is [>] on
    integers. *)
Lemma gt_of_Z a b :
  0 <= a <= max_safe_integer -> 0 <= b <= max_safe_integer ->
  gt (of_Z a) (of_Z b) = (b <? a).
Proof.
  unfold max_safe_integer. intros Ha Hb.
  destruct (Z.eq_dec a 0) as [->|Ha0]; [|destruct (Z.eq_dec b 0) as [->|Hb0]].
  - destruct (Z.eq_dec b 0) as [->|Hb0]; [reflexivity|].
    rewrite (of_Z_normal b) by lia. cbn.
    symmetry. apply Z.ltb_ge. lia.
  - rewrite (of_Z_normal a) by lia. cbn. symmetry. apply Z.ltb_lt. lia.
  - rewrite !of_Z_normal by lia. unfold gt, SFltb, normal. cbn [SFcompare].
    assert (Hla : Z.log2 a < 53) by (apply Z.log2_lt_pow2; lia).
    assert (Hlb : Z.log2 b < 53) by (apply Z.log2_lt_pow2; lia).
    pose proof (Z.log2_nonneg a). pose proof (Z.log2_nonneg b).
    destruct (Z.compare_spec (Z.log2 b - 52) (Z.log2 a - 52)) as [He|He|He].
    + rewrite Pos.compare_cont_spec. cbn [Pos.switch_Eq].
      rewrite Pos2Z.inj_compare, !normal_mantissa by lia.
      replace (Z.log2 b) with (Z.log2 a) by lia.
      assert (0 < 2 ^ (52 - Z.log2 a)) by (apply Z.pow_pos_nonneg; lia).
      destruct (Z.compare_spec (b * 2 ^ (52 - Z.log2 a)) (a * 2 ^ (52 - Z.log2 a)));
        destruct (Z.ltb_spec b a); try reflexivity; nia.
    + symmetry. apply Z.ltb_lt. apply Z.log2_lt_cancel. lia.
    + symmetry. apply Z.ltb_ge. apply Z.lt_le_incl, Z.log2_lt_cancel. lia.
Qed.

(** The Number of a negative integer that fits the mantissa. *)
Lemma of_Z_normal_neg z :
  0 < z -> z < 2 ^ 53 -> of_Z (- z) = normal true z.
Proof.
  intros Hz Hlt. unfold of_Z.
  destruct z as [|p|p]; try lia. cbn [Z.opp binary_normalize].
  apply (binary_round_exact true (Zpos p) 0 p); try lia.
  apply Z.log2_lt_pow2; lia.
Qed.

(** A smaller integer taken from a larger one, exactly. *)
Lemma add_normal_neg a b :
  0 < b -> b < a -> a < 2 ^ 53 ->
  add (normal false a) (normal true b) = normal false (a - b).
Proof.
  intros Hb Hba Ha.
  pose proof (Z.log2_nonneg a). pose proof (Z.log2_nonneg b).
  assert (Hla : Z.log2 a < 53) by (apply Z.log2_lt_pow2; lia).
  assert (Hlb : Z.log2 b < 53) by (apply Z.log2_lt_pow2; lia).
  assert (Hlab : Z.log2 (a - b) < 53) by (apply Z.log2_lt_pow2; lia).
  unfold add, normal at 1 2. cbn [SFadd cond_Zopp].
  set (ez := Z.min (Z.log2 a - 52) (Z.log2 b - 52)).
  destruct (shl_align_value (Z.to_pos (a * 2 ^ (52 - Z.log2 a))) (Z.log2 a - 52) ez) as [Va _]; [lia|].
  destruct (shl_align_value (Z.to_pos (b * 2 ^ (52 - Z.log2 b))) (Z.log2 b - 52) ez) as [Vb _]; [lia|].
  rewrite Va, Vb, !normal_mantissa by lia.
  assert (Hsum : a * 2 ^ (52 - Z.log2 a) * 2 ^ (Z.log2 a - 52 - ez)
                 + - (b * 2 ^ (52 - Z.log2 b) * 2 ^ (Z.log2 b - 52 - ez))
                 = (a - b) * 2 ^ (- ez)).
  { rewrite <- !Z.mul_assoc, <- !Z.pow_add_r by lia.
    replace (52 - Z.log2 a + (Z.log2 a - 52 - ez)) with (- ez) by lia.
    replace (52 - Z.log2 b + (Z.log2 b - 52 - ez)) with (- ez) by lia.
    ring. }
  rewrite Hsum.
  assert (Hp : 0 < (a - b) * 2 ^ (- ez))
    by (apply Z.mul_pos_pos; [lia | apply Z.pow_pos_nonneg; lia]).
  destruct ((a - b) * 2 ^ (- ez)) as [|p|p] eqn:Ep; try lia.
  cbn [binary_normalize].
  replace ez with (- (- ez)) at 1 by lia.
  apply binary_round_exact with (z := a - b); lia.
Qed.

(** [now + (-n) * 60 * 1000] on Numbers, for a positive [n] whose
    milliseconds are fewer than [now]. *)
Lemma add_mul_neg now n :
  0 < n -> n * 60000 < now -> now <= max_safe_integer ->
  add (of_Z now) (mul (mul (of_Z (- n)) (of_Z 60)) (of_Z 1000))
  = of_Z (now - n * 60000).
Proof.
  unfold max_safe_integer. intros Hn Hlt Hmax.
  rewrite of_Z_normal_neg, (of_Z_normal 60), (of_Z_normal 1000),
    (of_Z_normal now), (of_Z_normal (now - n * 60000)) by lia.
  rewrite (mul_normal true false) by lia.
  rewrite (mul_normal (xorb true false) false) by lia.
  cbn [xorb]. rewrite add_normal_neg by lia. f_equal. lia.
Qed.

End JSNumberFacts.

(** ** Strings *)

Section Strings.

Example parseInt_examples :
  JSString.parseInt "5" = JSNumber.of_Z 5
  /\ JSString.parseInt "  12px" = JSNumber.of_Z 12
  /\ JSString.parseInt "1.5" = JSNumber.of_Z 1
  /\ JSString.parseInt "0x1F" = JSNumber.of_Z 31
  /\ JSString.parseInt "-7" = JSNumber.of_Z (-7)
  /\ JSString.parseInt "-0" = S754_zero true
  /\ JSString.parseInt "0x" = JSNumber.NaN
  /\ JSString.parseInt "soon" = JSNumber.NaN.
Proof. by vm_compute. Qed.

Example uuidv4_example :
  Uuid.uuidv4 0x0123456789abcdef0123456789abcdef
  = "01234567-89ab-4def-8123-456789abcdef"%string.
Proof. reflexivity. Qed.

Example strip_hyphens_example :
  JSString.strip_hyphens "010-1234-5678" = "01012345678"%string.
Proof. reflexivity. Qed.

(** What [replace(/-/g, '')] leaves has no hyphen, and a string without
    hyphens is left as it is. *)
Lemma strip_hyphens_no_hyphen s :
  ~ In "-"%char (list_ascii_of_string (JSString.strip_hyphens s)).
Proof.
  induction s as [|c rest IH]; cbn [JSString.strip_hyphens]; [intros []|].
  destruct (Ascii.eqb c "-") eqn:E; [exact IH|].
  cbn [list_ascii_of_string]. intros [->|Hin]; [|by apply IH].
  by rewrite Ascii.eqb_refl in E.
Qed.

Lemma strip_hyphens_fixed s :
  ~ In "-"%char (list_ascii_of_string s) -> JSString.strip_hyphens s = s.
Proof.
  induction s as [|c rest IH]; cbn [JSString.strip_hyphens list_ascii_of_string];
    [done|].
  intros Hnin. destruct (Ascii.eqb c "-") eqn:E.
  - apply Ascii.eqb_eq in E as ->. exfalso. apply Hnin. by left.
  - f_equal. apply IH. intros Hin. apply Hnin. by right.
Qed.

Lemma strip_hyphens_idem s :
  JSString.strip_hyphens (JSString.strip_hyphens s) = JSString.strip_hyphens s.
Proof. apply strip_hyphens_fixed, strip_hyphens_no_hyphen. Qed.

End Strings.

(** ** Tokens and the lookup in the store *)

Section Lookup.

Lemma uuidv4_length rnd : String.length (Uuid.uuidv4 rnd) = 36%nat.
Proof. reflexivity. Qed.

Lemma uuidv4_not_falsy rnd : JSString.falsy (Some (Uuid.uuidv4 rnd)) = false.
Proof. reflexivity. Qed.

(** No name of [Object.prototype] has the 36 characters of a UUID. *)
Lemma uuidv4_not_inherited rnd : Uuid.uuidv4 rnd ∉ object_prototype_names.
Proof.
  intros Hin. pose proof (uuidv4_length rnd) as Hlen.
  unfold object_prototype_names in Hin.
  repeat (apply elem_of_cons in Hin as [Heq|Hin];
          [rewrite Heq in Hlen; discriminate Hlen|]).
  by apply elem_of_nil in Hin.
Qed.

Lemma get_property_own (store : Store) token r :
  store !! token = Some r -> get_property store token = Own r.
Proof. intros H. unfold get_property. by rewrite H. Qed.

Lemma get_property_own_inv (store : Store) token r :
  get_property store token = Own r -> store !! token = Some r.
Proof.
  unfold get_property. destruct (store !! token); [congruence|].
  by case_bool_decide.
Qed.

Lemma get_property_undefined (store : Store) token :
  store !! token = None -> token ∉ object_prototype_names ->
  get_property store token = Undefined.
Proof.
  intros H Hn. unfold get_property. rewrite H.
  by rewrite bool_decide_eq_false_2.
Qed.

Lemma get_property_inherited (store : Store) token :
  store !! token = None -> token ∈ object_prototype_names ->
  get_property store token = Inherited.
Proof.
  intros H Hn. unfold get_property. rewrite H.
  by rewrite bool_decide_eq_true_2.
Qed.

Lemma falsy_some_false (token : string) :
  token <> EmptyString -> JSString.falsy (Some token) = false.
Proof. by destruct token. Qed.

End Lookup.

(** ** The record of a token along the requests *)

Section Evolution.

Lemma evolves_refl r : evolves r r.
Proof. unfold evolves. repeat split; auto. Qed.

Lemma evolves_trans r1 r2 r3 : evolves r1 r2 -> evolves r2 r3 -> evolves r1 r3.
Proof.
  unfold evolves.
  intros (Hp & He & Hu & Hd & Hv & Hs & Hk & Hx)
         (Hp' & He' & Hu' & Hd' & Hv' & Hs' & Hk' & Hx').
  repeat split; try congruence; auto; try lia.
  { intros H3. specialize (Hk' H3). subst r3. auto. }
  intros H3. destruct (Hx' H3) as [H2|[now Hnow]]; [auto|].
  right. exists now. by rewrite <- He.
Qed.

Lemma evolves_expire r now :
  JSNumber.gt (JSNumber.of_Z now) (expiresAt r) = true ->
  evolves r (invalidate Expired r).
Proof.
  intros H. unfold evolves; cbn. repeat split; auto.
  - destruct (status r); cbn; lia.
  - discriminate.
  - intros _. right. by exists now.
Qed.

Lemma evolves_finalize r :
  status r = Pending -> evolves r (invalidate Verified r).
Proof.
  intros H. unfold evolves; cbn. repeat split; auto.
  - rewrite H; cbn; lia.
  - discriminate.
  - discriminate.
Qed.

(** The three ways a verification ends, seen from the store. *)
Lemma verify_run_cases (store store' : Store) q env x :
  verify_run store q env = (store', x) ->
  (store' = store /\ x <> PastExpiry /\ (forall p, x <> Success p))
  \/ (exists token r,
        q = Some token /\ store !! token = Some r
        /\ JSNumber.gt (JSNumber.of_Z (ver_now env)) (expiresAt r) = true
        /\ store' = <[token := invalidate Expired r]> store /\ x = PastExpiry)
  \/ (exists token r n,
        q = Some token /\ store !! token = Some r
        /\ JSNumber.gt (JSNumber.of_Z (ver_now env)) (expiresAt r) = false
        /\ isValid r = true /\ status r = Pending
        /\ precheck (axios_get env) = inr n
        /\ axios_post env (externalEventPayload r (ver_timestamp env)) = Fulfilled tt
        /\ store' = <[token := invalidate Verified r]> store
        /\ x = Success (phoneNumber r)).
Proof.
  unfold verify_run.
  destruct (JSString.falsy q) eqn:Hq.
  { intros [= <- <-]. left. by repeat split. }
  destruct q as [token|]; [|discriminate Hq]. cbn [default from_option id].
  destruct (get_property store token) as [r| |] eqn:Hget;
    [|intros [= <- <-]; left; by repeat split ..].
  apply get_property_own_inv in Hget.
  destruct (JSNumber.gt _ _) eqn:Hgt.
  { intros [= <- <-]. right. left. by exists token, r. }
  destruct (isValid r) eqn:Hv; cbn [negb];
    [|intros [= <- <-]; left; by repeat split].
  case_bool_decide as Hs; cbn [negb];
    [|intros [= <- <-]; left; by repeat split].
  destruct (precheck _) as [cause|n] eqn:Hpre;
    [intros [= <- <-]; left; by repeat split|].
  destruct (axios_post _ _) as [u|e] eqn:Hpost;
    [destruct u|intros [= <- <-]; left; by repeat split].
  intros [= <- <-]. right. right. by exists token, r, n.
Qed.

(** One request leaves every stored record in place, evolved. *)
Lemma verify_qr_evolves (store : Store) q env token r :
  store !! token = Some r ->
  exists r', fst (verify_qr store q env) !! token = Some r' /\ evolves r r'.
Proof.
  intros Hr. unfold verify_qr.
  destruct (verify_run store q env) as [store' x] eqn:Hrun. cbn [fst].
  apply verify_run_cases in Hrun
    as [(-> & _)|[(t & r0 & -> & Hr0 & Hgt & -> & _)
                 |(t & r0 & n & -> & Hr0 & _ & _ & Hs & _ & _ & -> & _)]].
  - exists r. split; [done | apply evolves_refl].
  - destruct (decide (t = token)) as [->|Hne].
    + rewrite lookup_insert_eq. eexists; split; [done|].
      assert (r0 = r) as -> by congruence. by eapply evolves_expire.
    + rewrite lookup_insert_ne by done. exists r. split; [done | apply evolves_refl].
  - destruct (decide (t = token)) as [->|Hne].
    + rewrite lookup_insert_eq. eexists; split; [done|].
      assert (r0 = r) as -> by congruence. by apply evolves_finalize.
    + rewrite lookup_insert_ne by done. exists r. split; [done | apply evolves_refl].
Qed.

(** What an issuance does to the store. *)
Lemma generate_qr_store (store : Store) req env :
  fst (generate_qr store req env) =
    if JSString.falsy (body_phoneNumber req) || JSString.falsy (body_validTime req)
    then store
    else <[Uuid.uuidv4 (gen_random env) :=
             new_record (JSString.strip_hyphens (default EmptyString (body_phoneNumber req)))
               (default EmptyString (body_validTime req)) (gen_now env)]> store.
Proof.
  unfold generate_qr.
  destruct (JSString.falsy _ || JSString.falsy _); [done|].
  destruct (toDataURL _ _); [|done]. by destruct (sendOne _ _).
Qed.

Lemma handle_evolves (store : Store) rq token r :
  fresh_tokens store [rq] ->
  store !! token = Some r ->
  exists r', fst (handle store rq) !! token = Some r' /\ evolves r r'.
Proof.
  intros [Hfresh _] Hr. destruct rq as [req env|q env]; cbn [handle].
  - rewrite generate_qr_store.
    destruct (JSString.falsy _ || JSString.falsy _) eqn:Hf.
    + exists r. split; [done | apply evolves_refl].
    + specialize (Hfresh eq_refl).
      rewrite lookup_insert_ne by congruence.
      exists r. split; [done | apply evolves_refl].
  - by apply verify_qr_evolves.
Qed.

Lemma serve_evolves rqs : forall (store : Store) token r,
  fresh_tokens store rqs ->
  store !! token = Some r ->
  exists r', fst (serve store rqs) !! token = Some r' /\ evolves r r'.
Proof.
  induction rqs as [|rq rest IH]; intros store token r Hfresh Hr.
  - exists r. split; [done | apply evolves_refl].
  - destruct Hfresh as [Hrq Hrest].
    destruct (handle_evolves store rq token r) as (r1 & Hr1 & Hev1);
      [by split | done |].
    cbn [serve]. destruct (handle store rq) as [store1 o] eqn:Hh.
    cbn [fst] in Hr1, Hrest.
    destruct (IH store1 token r1 Hrest Hr1) as (r2 & Hr2 & Hev2).
    destruct (serve store1 rest) as [store2 os]. cbn [fst] in *.
    exists r2. split; [done | by eapply evolves_trans].
Qed.

End Evolution.

(** ** Verification of a stored token *)

Section Verification.

(** The handler on a token that has a record, past its first two
    checks. *)
Lemma verify_run_own (store : Store) token r env :
  token <> EmptyString ->
  store !! token = Some r ->
  verify_run store (Some token) env =
    if JSNumber.gt (JSNumber.of_Z (ver_now env)) (expiresAt r)
    then (<[token := invalidate Expired r]> store, PastExpiry)
    else if negb (isValid r) then (store, NotValid)
    else if negb (bool_decide (status r = Pending))
    then (store, NotPending (status r))
    else
      match precheck (axios_get env) with
      | inl cause => (store, GetFailed cause)
      | inr _ =>
          match axios_post env (externalEventPayload r (ver_timestamp env)) with
          | RejectedWith e => (store, PostFailed e)
          | Fulfilled _ =>
              (<[token := invalidate Verified r]> store, Success (phoneNumber r))
          end
      end.
Proof.
  intros Hne Hr. unfold verify_run.
  rewrite falsy_some_false by done. cbn [default from_option id].
  by rewrite (get_property_own _ _ _ Hr).
Qed.

(** A record that is no longer valid is never verified again. *)
Lemma verify_run_invalid (store : Store) token r env :
  store !! token = Some r -> isValid r = false ->
  forall phone, snd (verify_run store (Some token) env) <> Success phone.
Proof.
  intros Hr Hv phone.
  destruct (verify_run store (Some token) env) as [store' x] eqn:Hrun.
  apply verify_run_cases in Hrun
    as [(_ & _ & Hx)|[(t & r0 & _ & _ & _ & _ & ->)
                     |(t & r0 & n & [= <-] & Hr0 & _ & Hv0 & _)]];
    cbn [snd]; [apply Hx | discriminate | congruence].
Qed.

Lemma outcome_200_inv x body :
  outcome_of_exit x = Responded 200 body -> exists phone, x = Success phone.
Proof. destruct x; cbn; intros [=]; eauto. Qed.

Lemma verify_qr_run (store : Store) q env :
  verify_qr store q env =
    (fst (verify_run store q env), outcome_of_exit (snd (verify_run store q env))).
Proof. unfold verify_qr. by destruct (verify_run store q env). Qed.

End Verification.

(** ** The claims of the specification *)

(** C2, as stated, fails: a second scan of an expired token is answered
    "expired" again. The sample record expires at 301000; scanned at
    400000 and again at 400001, both scans are answered 410, and the second
    one is not answered 409. *)
Lemma second_scan_after_expiry_is_expired_again :
  Sample.store !! Sample.token = Some Sample.record
  /\ status Sample.record = Pending
  /\ JSNumber.gt (JSNumber.of_Z 400000) (expiresAt Sample.record) = true
  /\ snd (verify_qr Sample.store (Some Sample.token) (Sample.log_up 400000))
     = Responded 410 ExpiredCodeText
  /\ snd (verify_qr
            (fst (verify_qr Sample.store (Some Sample.token) (Sample.log_up 400000)))
            (Some Sample.token) (Sample.log_up 400001))
     = Responded 410 ExpiredCodeText
  /\ failure_kind
       (snd (verify_run
               (fst (verify_qr Sample.store (Some Sample.token) (Sample.log_up 400000)))
               (Some Sample.token) (Sample.log_up 400001)))
     <> Some AlreadyConsumed.
Proof. vm_compute. repeat split; discriminate. Qed.

Lemma invalidate_idem s r : invalidate s (invalidate s r) = invalidate s r.
Proof. reflexivity. Qed.

(** C2, amended. A token whose record is in the store (whatever its status,
    so also when [Pending]) and which is scanned at a time past
    [expiresAt] is answered "expired" (410), and its record becomes invalid
    with status [Expired]. A later scan of the same token is answered
    "expired" again as long as its time is past [expiresAt], which is the
    case whenever the clock has not gone back, and the record is
    unchanged; it is answered "already used" (409) only when its time is not
    past [expiresAt]. *)
Theorem expired_scan (store : Store) token r env :
  token <> EmptyString ->
  store !! token = Some r ->
  JSNumber.gt (JSNumber.of_Z (ver_now env)) (expiresAt r) = true ->
  let store' := <[token := invalidate Expired r]> store in
  verify_qr store (Some token) env = (store', Responded 410 ExpiredCodeText)
  /\ (exists r', store' !! token = Some r'
                /\ isValid r' = false /\ status r' = Expired)
  /\ (forall env2,
        JSNumber.gt (JSNumber.of_Z (ver_now env2)) (expiresAt r) = true ->
        verify_qr store' (Some token) env2 = (store', Responded 410 ExpiredCodeText))
  /\ (forall env2,
        0 < ver_now env -> ver_now env <= ver_now env2 ->
        ver_now env2 <= JSNumber.max_safe_integer ->
        verify_qr store' (Some token) env2 = (store', Responded 410 ExpiredCodeText))
  /\ (forall env2,
        JSNumber.gt (JSNumber.of_Z (ver_now env2)) (expiresAt r) = false ->
        verify_qr store' (Some token) env2 = (store', Responded 409 UsedCodeText)).
Proof.
  intros Hne Hr Hgt store'.
  assert (Hr' : store' !! token = Some (invalidate Expired r))
    by apply lookup_insert_eq.
  assert (Hagain : forall env2,
             JSNumber.gt (JSNumber.of_Z (ver_now env2)) (expiresAt r) = true ->
             verify_qr store' (Some token) env2
             = (store', Responded 410 ExpiredCodeText)).
  { intros env2 Hgt2.
    rewrite verify_qr_run, (verify_run_own _ _ (invalidate Expired r)) by done.
    cbn [expiresAt invalidate]. rewrite Hgt2. cbn [fst snd outcome_of_exit].
    unfold store'. by rewrite insert_insert_eq. }
  repeat split.
  - rewrite verify_qr_run, (verify_run_own _ _ r) by done. by rewrite Hgt.
  - by exists (invalidate Expired r).
  - exact Hagain.
  - intros env2 Hpos Hlater Hsafe. apply Hagain.
    by apply (JSNumberFacts.gt_of_Z_mono (ver_now env)).
  - intros env2 Hgt2.
    rewrite verify_qr_run, (verify_run_own _ _ (invalidate Expired r)) by done.
    cbn [expiresAt isValid invalidate negb]. by rewrite Hgt2.
Qed.

Lemma expired_scan_witness :
  verify_qr Sample.store (Some Sample.token) (Sample.log_up 400000)
    = (<[Sample.token := invalidate Expired Sample.record]> Sample.store,
       Responded 410 ExpiredCodeText)
  /\ verify_qr (<[Sample.token := invalidate Expired Sample.record]> Sample.store)
       (Some Sample.token) (Sample.log_up 400001)
     = (<[Sample.token := invalidate Expired Sample.record]> Sample.store,
        Responded 410 ExpiredCodeText).
Proof.
  destruct (expired_scan Sample.store Sample.token Sample.record
              (Sample.log_up 400000))
    as (H1 & _ & _ & H2 & _);
    [discriminate | reflexivity | reflexivity |].
  split; [exact H1 | apply H2; by vm_compute].
Defined.

(** C3. When the handler reaches the submission to the event log and the
    submission fails, nothing is written to the store: the handler ends
    with the uncaught error and the record is still valid and [Pending].
    Conversely, a request turns the status of a record into [Verified]
    only on the path where the submission has succeeded. *)
Theorem submission_failure_keeps_pending :
  (forall (store : Store) token r env n e,
      token <> EmptyString ->
      store !! token = Some r ->
      status r = Pending ->
      isValid r = true ->
      JSNumber.gt (JSNumber.of_Z (ver_now env)) (expiresAt r) = false ->
      precheck (axios_get env) = inr n ->
      axios_post env (externalEventPayload r (ver_timestamp env)) = RejectedWith e ->
      verify_run store (Some token) env = (store, PostFailed e)
      /\ verify_qr store (Some token) env = (store, Threw (Uncaught e)))
  /\ (forall (store store' : Store) q env e,
      verify_run store q env = (store', PostFailed e) ->
      store' = store
      /\ exists token r,
           q = Some token /\ store' !! token = Some r
           /\ isValid r = true /\ status r = Pending)
  /\ (forall (store : Store) q env token r r',
      store !! token = Some r ->
      fst (verify_qr store q env) !! token = Some r' ->
      status r <> Verified ->
      status r' = Verified ->
      q = Some token
      /\ axios_post env (externalEventPayload r (ver_timestamp env)) = Fulfilled tt
      /\ isValid r' = false
      /\ snd (verify_qr store q env) = Responded 200 (SuccessPage (phoneNumber r))).
Proof.
  split; [|split].
  - intros store token r env n e Hne Hr Hs Hv Hgt Hpre Hpost.
    rewrite verify_qr_run, (verify_run_own _ _ r) by done.
    rewrite Hgt, Hv, Hs, Hpre, Hpost. cbn [negb].
    by rewrite bool_decide_eq_true_2.
  - intros store store' q env e. unfold verify_run.
    destruct (JSString.falsy q) eqn:Hq; [intros [=]|].
    destruct q as [token|]; [|discriminate Hq]. cbn [default from_option id].
    destruct (get_property store token) as [r| |] eqn:Hget; [|intros [=] ..].
    apply get_property_own_inv in Hget.
    destruct (JSNumber.gt _ _); [intros [=]|].
    destruct (isValid r) eqn:Hv; cbn [negb]; [|intros [=]].
    case_bool_decide as Hs; cbn [negb]; [|intros [=]].
    destruct (precheck _); [intros [=]|].
    destruct (axios_post _ _); intros [= <- <-].
    split; [done|]. by exists token, r.
  - intros store q env token r r' Hr Hr' Hs Hs'.
    rewrite verify_qr_run in *. cbn [fst snd] in *.
    destruct (verify_run store q env) as [store' x] eqn:Hrun. cbn [fst snd] in *.
    apply verify_run_cases in Hrun
      as [(-> & _)|[(t & r0 & -> & Hr0 & Hgt & -> & _)
                   |(t & r0 & n & -> & Hr0 & _ & _ & _ & _ & Hpost & -> & ->)]].
    + congruence.
    + destruct (decide (t = token)) as [->|Hne].
      * rewrite lookup_insert_eq in Hr'. injection Hr' as <-. discriminate Hs'.
      * rewrite lookup_insert_ne in Hr' by done. congruence.
    + destruct (decide (t = token)) as [->|Hne].
      * rewrite lookup_insert_eq in Hr'. injection Hr' as <-.
        assert (r0 = r) as -> by congruence. by repeat split.
      * rewrite lookup_insert_ne in Hr' by done. congruence.
Qed.

Lemma submission_failure_keeps_pending_witness :
  verify_qr Sample.store (Some Sample.token) (Sample.log_unwritable 2000)
    = (Sample.store, Threw (Uncaught Sample.network_error))
  /\ Sample.store !! Sample.token = Some Sample.record
  /\ isValid Sample.record = true /\ status Sample.record = Pending.
Proof.
  split; [|repeat split].
  apply (proj1 submission_failure_keeps_pending
           Sample.store Sample.token Sample.record (Sample.log_unwritable 2000)
           3%nat Sample.network_error);
    [discriminate | reflexivity ..].
Defined.

(** C4. When the handler reaches the fetch of the event log and the fetch
    fails, the handler throws the error of line 140, which carries the
    message of the failed fetch: the failure kind is
    [UpstreamUnavailable], the store is not written, and the record is
    still valid and [Pending]. *)
Theorem fetch_failure_aborts :
  (forall (store : Store) token r env getError,
      token <> EmptyString ->
      store !! token = Some r ->
      status r = Pending ->
      isValid r = true ->
      JSNumber.gt (JSNumber.of_Z (ver_now env)) (expiresAt r) = false ->
      axios_get env = RejectedWith getError ->
      verify_run store (Some token) env = (store, GetFailed (message getError))
      /\ failure_kind (snd (verify_run store (Some token) env))
         = Some UpstreamUnavailable
      /\ verify_qr store (Some token) env
         = (store, Threw (IdUndeterminedError (message getError))))
  /\ (forall (store store' : Store) q env cause,
      verify_run store q env = (store', GetFailed cause) ->
      store' = store
      /\ exists token r,
           q = Some token /\ store' !! token = Some r
           /\ isValid r = true /\ status r = Pending).
Proof.
  split.
  - intros store token r env getError Hne Hr Hs Hv Hgt Hget.
    rewrite verify_qr_run, (verify_run_own _ _ r) by done.
    rewrite Hgt, Hv, Hs, Hget. cbn [negb precheck].
    by rewrite bool_decide_eq_true_2.
  - intros store store' q env cause. unfold verify_run.
    destruct (JSString.falsy q) eqn:Hq; [intros [=]|].
    destruct q as [token|]; [|discriminate Hq]. cbn [default from_option id].
    destruct (get_property store token) as [r| |] eqn:Hget; [|intros [=] ..].
    apply get_property_own_inv in Hget.
    destruct (JSNumber.gt _ _); [intros [=]|].
    destruct (isValid r) eqn:Hv; cbn [negb]; [|intros [=]].
    case_bool_decide as Hs; cbn [negb]; [|intros [=]].
    destruct (precheck _); [|destruct (axios_post _ _); intros [=]].
    intros [= <- <-]. split; [done|]. by exists token, r.
Qed.

Lemma fetch_failure_aborts_witness :
  verify_qr Sample.store (Some Sample.token) (Sample.log_unreadable 2000)
    = (Sample.store, Threw (IdUndeterminedError "Network Error"))
  /\ Sample.store !! Sample.token = Some Sample.record
  /\ isValid Sample.record = true /\ status Sample.record = Pending.
Proof.
  split; [|repeat split].
  apply (proj1 fetch_failure_aborts
           Sample.store Sample.token Sample.record (Sample.log_unreadable 2000)
           Sample.network_error);
    [discriminate | reflexivity ..].
Defined.

(** C5, as stated, fails on the empty token: it has no record, and the
    handler answers 400, "there is no token", not 404. *)
Lemma empty_token_is_not_not_found :
  Sample.store !! EmptyString = None
  /\ verify_qr Sample.store (Some EmptyString) (Sample.log_up 2000)
     = (Sample.store, Responded 400 NoTokenText)
  /\ failure_kind (snd (verify_run Sample.store (Some EmptyString) (Sample.log_up 2000)))
     <> Some NotFound.
Proof. vm_compute. repeat split; discriminate. Qed.

(** A token that is the name of a member of [Object.prototype] and has no
    record is found by the lookup; it is answered "already used" (409),
    and the store is not written. *)
Lemma inherited_name_is_already_used (store : Store) token env :
  token ∈ object_prototype_names ->
  store !! token = None ->
  verify_qr store (Some token) env = (store, Responded 409 UsedCodeText).
Proof.
  intros Hin Hnone. rewrite verify_qr_run. unfold verify_run.
  assert (Hne : token <> EmptyString).
  { intros ->. unfold object_prototype_names in Hin.
    repeat (apply elem_of_cons in Hin as [Heq|Hin]; [discriminate Heq|]).
    by apply elem_of_nil in Hin. }
  rewrite falsy_some_false by done. cbn [default from_option id].
  by rewrite get_property_inherited.
Qed.

Example constructor_is_already_used :
  Sample.store !! "constructor"%string = None
  /\ verify_qr Sample.store (Some "constructor"%string) (Sample.log_up 2000)
     = (Sample.store, Responded 409 UsedCodeText).
Proof. vm_compute. by split. Qed.

(** C5, amended. For every store, a token that is not empty, is not the
    name of a member of [Object.prototype] and has no record in the store
    is answered "invalid code" (404), the failure kind [NotFound], and the
    store is not written. A request without a token, or with the empty
    token, is answered 400 and the store is not written. *)
Theorem unknown_token_is_not_found :
  (forall (store : Store) token env,
      token <> EmptyString ->
      token ∉ object_prototype_names ->
      store !! token = None ->
      verify_qr store (Some token) env = (store, Responded 404 InvalidCodeText)
      /\ failure_kind (snd (verify_run store (Some token) env)) = Some NotFound)
  /\ (forall (store : Store) q env,
      JSString.falsy q = true ->
      verify_qr store q env = (store, Responded 400 NoTokenText)).
Proof.
  split.
  - intros store token env Hne Hnin Hnone.
    rewrite verify_qr_run. unfold verify_run.
    rewrite falsy_some_false by done. cbn [default from_option id].
    by rewrite get_property_undefined.
  - intros store q env Hq. rewrite verify_qr_run. unfold verify_run.
    by rewrite Hq.
Qed.

Lemma unknown_token_is_not_found_witness :
  verify_qr Sample.store (Some "no-such-token"%string) (Sample.log_up 2000)
    = (Sample.store, Responded 404 InvalidCodeText)
  /\ verify_qr Sample.store None (Sample.log_up 2000)
     = (Sample.store, Responded 400 NoTokenText).
Proof.
  split.
  - apply (proj1 unknown_token_is_not_found
             Sample.store "no-such-token"%string (Sample.log_up 2000));
      [discriminate | compute_done | reflexivity].
  - apply (proj2 unknown_token_is_not_found Sample.store None (Sample.log_up 2000)).
    reflexivity.
Defined.

(** ** Sequences *)

Section Sequences.

Lemma serve_app rqs1 : forall (store : Store) rqs2,
  fst (serve store (rqs1 ++ rqs2)) = fst (serve (fst (serve store rqs1)) rqs2).
Proof.
  induction rqs1 as [|rq rest IH]; intros store rqs2; [done|].
  cbn [app serve]. destruct (handle store rq) as [store1 o].
  specialize (IH store1 rqs2).
  destruct (serve store1 (rest ++ rqs2)) as [sa osa].
  destruct (serve store1 rest) as [sb osb]. cbn [fst] in *.
  by rewrite IH.
Qed.

Lemma fresh_tokens_app rqs1 : forall (store : Store) rqs2,
  fresh_tokens store (rqs1 ++ rqs2) ->
  fresh_tokens (fst (serve store rqs1)) rqs2.
Proof.
  induction rqs1 as [|rq rest IH]; intros store rqs2; [done|].
  cbn [app fresh_tokens serve]. intros [_ Hrest].
  destruct (handle store rq) as [store1 o]. cbn [fst] in Hrest.
  specialize (IH store1 rqs2 Hrest).
  by destruct (serve store1 rest).
Qed.

End Sequences.

(** C7. Take any sequence of issuances and verifications in which
    [uuidv4] does not repeat a token, and any two points of it. A record
    that is in the store at the first point is still there at the second,
    and between the two its [isValid] has not gone from [false] to [true]
    and its [status] has not gone back: the rank of the status has not
    decreased, so a status that was not [Pending] is not [Pending]. *)
Theorem record_state_is_monotonic (store : Store) rqs1 rqs2 token r :
  fresh_tokens store (rqs1 ++ rqs2) ->
  fst (serve store rqs1) !! token = Some r ->
  exists r',
    fst (serve store (rqs1 ++ rqs2)) !! token = Some r'
    /\ (isValid r = false -> isValid r' = false)
    /\ (status_rank (status r) <= status_rank (status r'))%nat
    /\ (status r <> Pending -> status r' <> Pending).
Proof.
  intros Hfresh Hr. rewrite serve_app.
  apply fresh_tokens_app in Hfresh.
  destruct (serve_evolves rqs2 _ token r Hfresh Hr)
    as (r' & Hr' & (_ & _ & _ & _ & Hv & Hs & Hk & _)).
  exists r'. repeat split; auto.
  intros Hnp Hp. apply Hnp. by rewrite <- (Hk Hp).
Qed.

Lemma record_state_is_monotonic_witness :
  exists r',
    fst (serve Sample.store
           ([Verify (Some Sample.token) (Sample.log_up 2000)]
            ++ [Generate (Sample.form "010-1234-5678" "5") (Sample.delivery_up 3000 8);
                Verify (Some Sample.token) (Sample.log_up 400000)]))
      !! Sample.token = Some r'
    /\ isValid r' = false /\ status r' <> Pending.
Proof.
  destruct (record_state_is_monotonic Sample.store
              [Verify (Some Sample.token) (Sample.log_up 2000)]
              [Generate (Sample.form "010-1234-5678" "5") (Sample.delivery_up 3000 8);
               Verify (Some Sample.token) (Sample.log_up 400000)]
              Sample.token (invalidate Verified Sample.record))
    as (r' & Hr' & Hv & _ & Hs).
  - cbn [app fresh_tokens]. repeat split.
  - reflexivity.
  - exists r'. split; [exact Hr'|]. split; [by apply Hv | by apply Hs].
Defined.

(** ** Issuance *)

Section Issuance.

Lemma uuidv4_nonempty rnd : Uuid.uuidv4 rnd <> EmptyString.
Proof. discriminate. Qed.

Lemma digit_value_nonneg c d : JSString.digit_value c = Some d -> 0 <= d.
Proof.
  unfold JSString.digit_value.
  repeat (destruct (_ && _) eqn:E;
          [apply andb_true_iff in E as [?%Z.leb_le ?%Z.leb_le];
           intros [= <-]; lia|clear E]).
  discriminate.
Qed.

Lemma radix_prefix_nonneg R s : forall acc n,
  0 <= R ->
  (forall a, acc = Some a -> 0 <= a) ->
  JSString.radix_prefix R s acc = Some n -> 0 <= n.
Proof.
  induction s as [|c rest IH]; intros acc n HR Hacc; cbn [JSString.radix_prefix].
  - apply Hacc.
  - destruct (JSString.digit_value c) as [d|] eqn:Hd; [|apply Hacc].
    apply digit_value_nonneg in Hd.
    destruct (d <? R); [|apply Hacc].
    apply IH; [done|]. intros a [= <-].
    destruct acc as [a0|]; cbn [default from_option id].
    + specialize (Hacc a0 eq_refl). nia.
    + lia.
Qed.

Lemma parseInt_integer_nonneg s negative n :
  JSString.parseInt_integer s = Some (negative, n) -> 0 <= n.
Proof.
  unfold JSString.parseInt_integer.
  destruct (JSString.strip_sign _) as [sg s2].
  destruct (JSString.strip_prefix s2) as [R s3] eqn:HR.
  assert (0 <= R).
  { unfold JSString.strip_prefix in HR.
    repeat (match type of HR with
            | context [match ?x with _ => _ end] => destruct x
            end; try (injection HR as <- _; lia)). }
  destruct (JSString.radix_prefix R s3 None) as [m|] eqn:Hm; [|discriminate].
  intros [= _ <-].
  apply (radix_prefix_nonneg R s3 None m); [done | discriminate | done].
Qed.

(** On an input that starts with digits, [parseInt] is the Number of
    the integer they write. *)
Lemma parseInt_of_integer s n :
  JSString.parseInt_integer s = Some (false, n) ->
  JSString.parseInt s = JSNumber.of_Z n.
Proof.
  intros H. pose proof (parseInt_integer_nonneg _ _ _ H).
  unfold JSString.parseInt. rewrite H. destruct n; [done | done | lia].
Qed.

(** The time of expiry computed on line 60, for a duration of [n]
    minutes, as long as the result is a safe integer. *)
Lemma expiry_time_exact now n :
  0 <= now -> 0 <= n ->
  now + n * 60000 <= JSNumber.max_safe_integer ->
  JSNumber.add (JSNumber.of_Z now)
    (JSNumber.mul (JSNumber.mul (JSNumber.of_Z n) (JSNumber.of_Z 60))
       (JSNumber.of_Z 1000))
  = JSNumber.of_Z (now + n * 60000).
Proof.
  intros Hnow Hn Hsafe.
  assert (Hmax : JSNumber.max_safe_integer = 9007199254740991) by reflexivity.
  rewrite JSNumberFacts.mul_of_Z by lia.
  rewrite JSNumberFacts.mul_of_Z by lia.
  rewrite JSNumberFacts.add_of_Z by lia.
  f_equal. lia.
Qed.

Lemma falsy_false_inv (o : option string) :
  JSString.falsy o = false -> exists s, o = Some s /\ s <> EmptyString.
Proof. destruct o as [[|c s]|]; try discriminate. intros _. by eexists. Qed.

(** The store after an issuance that passes the check of line 51. *)
Lemma generate_qr_stores (store : Store) req env phone validTime :
  body_phoneNumber req = Some phone -> phone <> EmptyString ->
  body_validTime req = Some validTime -> validTime <> EmptyString ->
  fst (generate_qr store req env)
  = <[Uuid.uuidv4 (gen_random env) :=
        new_record (JSString.strip_hyphens phone) validTime (gen_now env)]> store.
Proof.
  intros Hp Hpne Hv Hvne. rewrite generate_qr_store, Hp, Hv.
  by rewrite !falsy_some_false.
Qed.

End Issuance.

(** C8. An issuance whose phone number or validity duration is missing
    (absent or empty) is answered 400 and stores nothing. Any other
    issuance stores, under the token drawn by [uuidv4], a record whose
    [phoneNumber] is the input without its hyphens, whose [expiresAt] is
    [Date.now() + parseInt(validTime) * 60 * 1000], whose [status] is
    [Pending] and whose [isValid] is [true]; when the duration is written
    as an integer [n] of minutes and the result is a safe integer,
    [expiresAt] is exactly the time of issuance plus [n * 60000]. *)
Theorem issuance_stores_record :
  (forall (store : Store) req env,
      JSString.falsy (body_phoneNumber req) || JSString.falsy (body_validTime req) = true ->
      generate_qr store req env = (store, Responded 400 AskForPhoneAndTime))
  /\ (forall (store : Store) req env phone validTime,
      body_phoneNumber req = Some phone -> phone <> EmptyString ->
      body_validTime req = Some validTime -> validTime <> EmptyString ->
      exists r,
        fst (generate_qr store req env) = <[Uuid.uuidv4 (gen_random env) := r]> store
        /\ get_property (fst (generate_qr store req env)) (Uuid.uuidv4 (gen_random env))
           = Own r
        /\ phoneNumber r = JSString.strip_hyphens phone
        /\ expiresAt r
           = JSNumber.add (JSNumber.of_Z (gen_now env))
               (JSNumber.mul
                  (JSNumber.mul (JSString.parseInt validTime) (JSNumber.of_Z 60))
                  (JSNumber.of_Z 1000))
        /\ status r = Pending
        /\ isValid r = true
        /\ (forall n,
              JSString.parseInt_integer validTime = Some (false, n) ->
              0 <= gen_now env ->
              gen_now env + n * 60000 <= JSNumber.max_safe_integer ->
              expiresAt r = JSNumber.of_Z (gen_now env + n * 60000))).
Proof.
  split.
  - intros store req env Hmissing. unfold generate_qr. by rewrite Hmissing.
  - intros store req env phone validTime Hp Hpne Hv Hvne.
    rewrite (generate_qr_stores _ _ _ _ _ Hp Hpne Hv Hvne).
    eexists. split; [reflexivity|]. split; [|repeat split].
    + apply get_property_own, lookup_insert_eq.
    + intros n Hn Hnow Hsafe. cbn [expiresAt new_record].
      rewrite (parseInt_of_integer _ _ Hn).
      apply expiry_time_exact; [done | by eapply parseInt_integer_nonneg | done].
Qed.

Lemma issuance_stores_record_witness :
  generate_qr Sample.store
    {| body_phoneNumber := None; body_validTime := Some "5"%string |}
    (Sample.delivery_up 1700000000000 8)
  = (Sample.store, Responded 400 AskForPhoneAndTime)
  /\ exists r,
       fst (generate_qr Sample.store (Sample.form "010-1234-5678" "5")
              (Sample.delivery_up 1700000000000 8))
         !! Uuid.uuidv4 8 = Some r
       /\ phoneNumber r = "01012345678"%string
       /\ expiresAt r = JSNumber.of_Z 1700000300000
       /\ status r = Pending /\ isValid r = true.
Proof.
  split.
  - apply (proj1 issuance_stores_record). reflexivity.
  - destruct (proj2 issuance_stores_record Sample.store
                (Sample.form "010-1234-5678" "5")
                (Sample.delivery_up 1700000000000 8) "010-1234-5678"%string "5"%string)
      as (r & Hst & Hget & Hph & _ & Hs & Hv & Hexact);
      [reflexivity | discriminate | reflexivity | discriminate |].
    exists r. repeat split.
    + by apply get_property_own_inv.
    + exact Hph.
    + apply (Hexact 5); [reflexivity | by vm_compute | by vm_compute].
    + exact Hs.
    + exact Hv.
Defined.

(** C9. When an issuance has passed the check of line 51 and the
    rendering of the QR image or the dispatch of the SMS fails, the caller
    is answered 500, with the fixed server-error text or the text built
    from an axios error; the record stored on line 65 is in the store as it
    was stored, valid and [Pending], and no other entry has changed. *)
Theorem delivery_failure_keeps_record (store : Store) req env phone validTime :
  body_phoneNumber req = Some phone -> phone <> EmptyString ->
  body_validTime req = Some validTime -> validTime <> EmptyString ->
  let token := Uuid.uuidv4 (gen_random env) in
  let r := new_record (JSString.strip_hyphens phone) validTime (gen_now env) in
  (exists e, toDataURL env (authUrl env token) = RejectedWith e)
  \/ (exists e, sendOne env {| sms_to := JSString.strip_hyphens phone;
                               sms_from := SENDER_NO env;
                               sms_link := authUrl env token |} = RejectedWith e) ->
  (exists body,
      snd (generate_qr store req env) = Responded 500 body
      /\ (body = ServerErrorText \/ exists msg detail, body = AxiosFailureText msg detail))
  /\ fst (generate_qr store req env) = <[token := r]> store
  /\ get_property (fst (generate_qr store req env)) token = Own r
  /\ isValid r = true /\ status r = Pending
  /\ (forall other, other <> token ->
        fst (generate_qr store req env) !! other = store !! other).
Proof.
  intros Hp Hpne Hv Hvne token r Hfail.
  rewrite (generate_qr_stores _ _ _ _ _ Hp Hpne Hv Hvne). fold token r.
  split; [|repeat split].
  - assert (Hcatch : forall e, exists body,
               generate_catch e = Responded 500 body
               /\ (body = ServerErrorText
                   \/ exists msg detail, body = AxiosFailureText msg detail)).
    { intros e. unfold generate_catch. destruct (isAxiosError e); eauto 6. }
    unfold generate_qr. rewrite Hp, Hv, !falsy_some_false by done.
    cbn [orb default from_option id]. fold token.
    destruct Hfail as [[e He]|[e He]].
    + rewrite He. apply Hcatch.
    + destruct (toDataURL env (authUrl env token)); [|apply Hcatch].
      rewrite He. apply Hcatch.
  - apply get_property_own, lookup_insert_eq.
  - intros other Hne. by rewrite lookup_insert_ne.
Qed.

Lemma delivery_failure_keeps_record_witness :
  (exists body,
      snd (generate_qr Sample.store (Sample.form "010-1234-5678" "5")
             (Sample.sms_down 2000 8)) = Responded 500 body
      /\ (body = ServerErrorText \/ exists msg detail, body = AxiosFailureText msg detail))
  /\ get_property
       (fst (generate_qr Sample.store (Sample.form "010-1234-5678" "5")
               (Sample.sms_down 2000 8)))
       (Uuid.uuidv4 8)
     = Own (new_record "01012345678" "5" 2000).
Proof.
  destruct (delivery_failure_keeps_record Sample.store
              (Sample.form "010-1234-5678" "5") (Sample.sms_down 2000 8)
              "010-1234-5678"%string "5"%string)
    as (Hout & _ & Hget & _);
    [reflexivity | discriminate | reflexivity | discriminate
    | right; eexists; reflexivity |].
  split; [exact Hout | exact Hget].
Defined.

(** C10. When the validity duration of an issuance has no digits to parse,
    [parseInt] is [NaN] and so is the [expiresAt] of the stored record.
    Whatever requests follow (with tokens that [uuidv4] does not repeat),
    the record keeps this [expiresAt], its status is never [Expired], no
    scan of the token at any time ends at the expiry check, and as long as
    the record is [Pending] a scan at any time succeeds when the event log
    answers both calls. *)
Theorem unparsable_duration_never_expires
    (store : Store) req env phone validTime :
  body_phoneNumber req = Some phone -> phone <> EmptyString ->
  body_validTime req = Some validTime -> validTime <> EmptyString ->
  JSString.parseInt validTime = JSNumber.NaN ->
  let token := Uuid.uuidv4 (gen_random env) in
  let store1 := fst (generate_qr store req env) in
  (exists r, store1 !! token = Some r
             /\ expiresAt r = JSNumber.NaN
             /\ status r = Pending /\ isValid r = true)
  /\ (forall rqs, fresh_tokens store1 rqs ->
      exists r2,
        fst (serve store1 rqs) !! token = Some r2
        /\ expiresAt r2 = JSNumber.NaN
        /\ status r2 <> Expired
        /\ forall env2,
             snd (verify_run (fst (serve store1 rqs)) (Some token) env2) <> PastExpiry
             /\ (status r2 = Pending ->
                 forall n,
                   precheck (axios_get env2) = inr n ->
                   axios_post env2 (externalEventPayload r2 (ver_timestamp env2))
                     = Fulfilled tt ->
                   snd (verify_qr (fst (serve store1 rqs)) (Some token) env2)
                     = Responded 200 (SuccessPage (phoneNumber r2)))).
Proof.
  intros Hp Hpne Hv Hvne Hnan token store1.
  set (r := new_record (JSString.strip_hyphens phone) validTime (gen_now env)).
  assert (Hr : store1 !! token = Some r).
  { unfold store1. rewrite (generate_qr_stores _ _ _ _ _ Hp Hpne Hv Hvne).
    apply lookup_insert_eq. }
  assert (Hexp : expiresAt r = JSNumber.NaN).
  { cbn [r expiresAt new_record].
    rewrite Hnan, !JSNumberFacts.mul_NaN_l. apply JSNumberFacts.add_NaN_r. }
  split; [by exists r|].
  intros rqs Hfresh.
  destruct (serve_evolves rqs store1 token r Hfresh Hr)
    as (r2 & Hr2 & (_ & He & _ & _ & _ & _ & Hk & Hx)).
  rewrite Hexp in He.
  exists r2. split; [done|]. split; [done|]. split.
  - intros Hs. destruct (Hx Hs) as [Hs0|[now Hnow]]; [discriminate Hs0|].
    rewrite Hexp, JSNumberFacts.gt_NaN_r in Hnow. discriminate Hnow.
  - intros env2.
    rewrite verify_qr_run, (verify_run_own _ _ r2) by (done || apply uuidv4_nonempty).
    rewrite He, JSNumberFacts.gt_NaN_r. split.
    + destruct (negb (isValid r2)); [discriminate|].
      destruct (negb _); [discriminate|].
      destruct (precheck _); [discriminate|].
      destruct (axios_post _ _); discriminate.
    + intros Hs n Hpre Hpost. rewrite (Hk Hs) in *.
      rewrite Hpre, Hpost. reflexivity.
Qed.

Lemma unparsable_duration_never_expires_witness :
  exists r,
    fst (generate_qr Sample.store (Sample.form "010-1234-5678" "soon")
           (Sample.delivery_up 2000 8)) !! Uuid.uuidv4 8 = Some r
    /\ expiresAt r = JSNumber.NaN /\ status r = Pending /\ isValid r = true.
Proof.
  apply (unparsable_duration_never_expires Sample.store
           (Sample.form "010-1234-5678" "soon") (Sample.delivery_up 2000 8)
           "010-1234-5678"%string "soon"%string);
    [reflexivity | discriminate | reflexivity | discriminate | reflexivity].
Defined.

(** ** Scenarios *)

Section Scenarios.

(** A token issued for one minute and scanned at once is verified; scanned
    again it is refused as already used. *)
Example issue_verify_verify :
  snd (serve ∅
         [ Generate (Sample.form "010-1234-5678" "1") (Sample.delivery_up 1000 8);
           Verify (Some (Uuid.uuidv4 8)) (Sample.log_up 2000);
           Verify (Some (Uuid.uuidv4 8)) (Sample.log_up 3000) ])
  = [ Responded 200
        (ResultPage
           "data:image/png;base64,http://localhost:3000/verify-qr?token=00000000-0000-4000-8000-000000000008"
           "01012345678");
      Responded 200 (SuccessPage "01012345678");
      Responded 409 UsedCodeText ].
Proof. by vm_compute. Qed.

(** A token issued at time 1000 for one minute expires at 61000: a scan
    at 61000 is still verified, a scan at 61001 is refused as expired. *)
Example expiry_is_strict :
  snd (verify_qr
         (fst (generate_qr ∅ (Sample.form "010-1234-5678" "1") (Sample.delivery_up 1000 8)))
         (Some (Uuid.uuidv4 8)) (Sample.log_up 61000))
  = Responded 200 (SuccessPage "01012345678")
  /\ snd (verify_qr
            (fst (generate_qr ∅ (Sample.form "010-1234-5678" "1") (Sample.delivery_up 1000 8)))
            (Some (Uuid.uuidv4 8)) (Sample.log_up 61001))
     = Responded 410 ExpiredCodeText.
Proof. by vm_compute. Qed.

(** When the QR image cannot be rendered the SMS is not sent, the caller
    is answered 500, and the record is in the store. *)
Example rendering_failure :
  snd (generate_qr ∅ (Sample.form "010-1234-5678" "1") (Sample.qr_down 1000 8))
  = Responded 500 ServerErrorText
  /\ fst (generate_qr ∅ (Sample.form "010-1234-5678" "1") (Sample.qr_down 1000 8))
       !! Uuid.uuidv4 8
     = Some (new_record "01012345678" "1" 1000).
Proof. by vm_compute. Qed.

(** A record that was verified and is scanned after its time of expiry
    becomes [Expired]. *)
Example verified_then_expired :
  fst (serve Sample.store
         [ Verify (Some Sample.token) (Sample.log_up 2000);
           Verify (Some Sample.token) (Sample.log_up 400000) ])
    !! Sample.token
  = Some (invalidate Expired Sample.record)
  /\ snd (serve Sample.store
            [ Verify (Some Sample.token) (Sample.log_up 2000);
              Verify (Some Sample.token) (Sample.log_up 400000) ])
     = [ Responded 200 (SuccessPage "01012345678");
         Responded 410 ExpiredCodeText ].
Proof. by vm_compute. Qed.

End Scenarios.

(** * Further properties of the handlers *)

(** ** Case analysis of a verification *)

(** Splits a goal about [verify_io] or [verify_run] on [q] in [store] under
    [env] into the ten paths of the handler, with the tests of each path
    as hypotheses. *)
Ltac scan_paths q store env :=
  unfold verify_io, verify_run;
  let Hq := fresh "Hq" in
  destruct (JSString.falsy q) eqn:Hq;
  [|let token := fresh "token" in
    destruct q as [token|]; [|discriminate Hq]; cbn [default from_option id];
    let r := fresh "r" in
    let Hget := fresh "Hget" in
    destruct (get_property store token) as [r| |] eqn:Hget;
    [apply get_property_own_inv in Hget;
     let Hgt := fresh "Hgt" in
     destruct (JSNumber.gt (JSNumber.of_Z (ver_now env)) (expiresAt r)) eqn:Hgt;
     [|let Hv := fresh "Hv" in
       destruct (isValid r) eqn:Hv; cbn [negb];
       [let Hs := fresh "Hs" in
        case_bool_decide as Hs; cbn [negb];
        [let Hpre := fresh "Hpre" in
         destruct (precheck (axios_get env)) as [?cause|?n] eqn:Hpre;
         [|let Hpost := fresh "Hpost" in
           destruct (axios_post env (externalEventPayload r (ver_timestamp env)))
             as [[]|?e] eqn:Hpost]
        |]
       |]]
    | | ]].

Section Calls.

(** The handlers that record their calls are the handlers. *)
Lemma verify_io_run (store : Store) q env :
  fst (verify_io store q env) = verify_run store q env.
Proof. scan_paths q store env; reflexivity. Qed.

Lemma generate_io_run (store : Store) req env :
  fst (generate_io store req env) = generate_qr store req env.
Proof.
  unfold generate_io, generate_qr.
  destruct (JSString.falsy _ || JSString.falsy _); [done|].
  destruct (toDataURL _ _); [|done]. by destruct (sendOne _ _).
Qed.

Lemma precheck_not_nullish data :
  nullish data = false -> exists n, precheck (Fulfilled data) = inr n.
Proof.
  destruct data as [| |n|[[n|]|]|]; try discriminate; intros _; cbn; eauto.
Qed.

Lemma precheck_nullish data :
  nullish data = true -> exists cause, precheck (Fulfilled data) = inl cause.
Proof. destruct data; try discriminate; intros _; cbn; eauto. Qed.

End Calls.

(** ** Issuance followed by a scan *)

(** X1. A token issued at time [now] for [n] minutes ([n] written in
    digits, zero allowed), whether or not its delivery worked, is accepted
    by a scan at every time up to and including [now + n * 60000] when the
    event log answers, and is refused as expired at every later time. *)
Theorem issued_token_is_accepted_until_expiry
    (store : Store) req env phone validTime n env2 k :
  body_phoneNumber req = Some phone -> phone <> EmptyString ->
  body_validTime req = Some validTime -> validTime <> EmptyString ->
  JSString.parseInt_integer validTime = Some (false, n) ->
  0 <= gen_now env ->
  gen_now env + n * 60000 <= JSNumber.max_safe_integer ->
  0 <= ver_now env2 <= JSNumber.max_safe_integer ->
  precheck (axios_get env2) = inr k ->
  (forall payload, axios_post env2 payload = Fulfilled tt) ->
  let store1 := fst (generate_qr store req env) in
  let token := Uuid.uuidv4 (gen_random env) in
  (ver_now env2 <= gen_now env + n * 60000 ->
   snd (verify_qr store1 (Some token) env2)
   = Responded 200 (SuccessPage (JSString.strip_hyphens phone)))
  /\ (gen_now env + n * 60000 < ver_now env2 ->
      snd (verify_qr store1 (Some token) env2) = Responded 410 ExpiredCodeText).
Proof.
  intros Hp Hpne Hv Hvne Hn Hnow Hsafe Hnow2 Hpre Hpost store1 token.
  pose proof (parseInt_integer_nonneg _ _ _ Hn) as Hn0.
  set (r := new_record (JSString.strip_hyphens phone) validTime (gen_now env)).
  assert (Hr : store1 !! token = Some r).
  { unfold store1. rewrite (generate_qr_stores _ _ _ _ _ Hp Hpne Hv Hvne).
    apply lookup_insert_eq. }
  assert (Hexp : expiresAt r = JSNumber.of_Z (gen_now env + n * 60000)).
  { cbn [r expiresAt new_record]. rewrite (parseInt_of_integer _ _ Hn).
    by apply expiry_time_exact. }
  rewrite verify_qr_run, (verify_run_own _ _ r) by (done || apply uuidv4_nonempty).
  rewrite Hexp, JSNumberFacts.gt_of_Z by lia.
  split; intros Hcmp.
  - rewrite (proj2 (Z.ltb_ge _ _)) by lia.
    cbn [isValid status r new_record negb].
    rewrite bool_decide_eq_true_2 by done. cbn [negb].
    by rewrite Hpre, Hpost.
  - by rewrite (proj2 (Z.ltb_lt _ _)) by lia.
Qed.

Lemma issued_token_is_accepted_until_expiry_witness :
  snd (verify_qr
         (fst (generate_qr Sample.store (Sample.form "010-1234-5678" "5")
                 (Sample.sms_down 1000 8)))
         (Some (Uuid.uuidv4 8)) (Sample.log_up 301000))
  = Responded 200 (SuccessPage "01012345678")
  /\ snd (verify_qr
            (fst (generate_qr Sample.store (Sample.form "010-1234-5678" "5")
                    (Sample.sms_down 1000 8)))
            (Some (Uuid.uuidv4 8)) (Sample.log_up 301001))
     = Responded 410 ExpiredCodeText.
Proof.
  split.
  - apply (issued_token_is_accepted_until_expiry Sample.store
             (Sample.form "010-1234-5678" "5") (Sample.sms_down 1000 8)
             "010-1234-5678"%string "5"%string 5 (Sample.log_up 301000) 3%nat);
      try reflexivity; try discriminate; by vm_compute.
  - apply (issued_token_is_accepted_until_expiry Sample.store
             (Sample.form "010-1234-5678" "5") (Sample.sms_down 1000 8)
             "010-1234-5678"%string "5"%string 5 (Sample.log_up 301001) 3%nat);
      try reflexivity; try discriminate; by vm_compute.
Defined.

(** X2. A negative validity duration is not refused: the record is stored
    with an [expiresAt] that lies [n] minutes before the issuance, and
    every scan from the time of issuance on is answered "expired". *)
Theorem negative_duration_is_born_expired
    (store : Store) req env phone validTime n :
  body_phoneNumber req = Some phone -> phone <> EmptyString ->
  body_validTime req = Some validTime -> validTime <> EmptyString ->
  JSString.parseInt_integer validTime = Some (true, n) ->
  0 < n ->
  n * 60000 < gen_now env ->
  gen_now env <= JSNumber.max_safe_integer ->
  let store1 := fst (generate_qr store req env) in
  let token := Uuid.uuidv4 (gen_random env) in
  (exists r, store1 !! token = Some r
             /\ expiresAt r = JSNumber.of_Z (gen_now env - n * 60000)
             /\ isValid r = true /\ status r = Pending)
  /\ (forall env2,
        gen_now env <= ver_now env2 <= JSNumber.max_safe_integer ->
        snd (verify_qr store1 (Some token) env2) = Responded 410 ExpiredCodeText).
Proof.
  intros Hp Hpne Hv Hvne Hn Hn0 Hlt Hsafe store1 token.
  set (r := new_record (JSString.strip_hyphens phone) validTime (gen_now env)).
  assert (Hr : store1 !! token = Some r).
  { unfold store1. rewrite (generate_qr_stores _ _ _ _ _ Hp Hpne Hv Hvne).
    apply lookup_insert_eq. }
  assert (Hexp : expiresAt r = JSNumber.of_Z (gen_now env - n * 60000)).
  { cbn [r expiresAt new_record]. unfold JSString.parseInt. rewrite Hn.
    destruct n as [|p|p]; try lia.
    by apply JSNumberFacts.add_mul_neg. }
  split; [by exists r|].
  intros env2 Hnow2.
  rewrite verify_qr_run, (verify_run_own _ _ r) by (done || apply uuidv4_nonempty).
  assert (Hmax : JSNumber.max_safe_integer = 9007199254740991) by reflexivity.
  rewrite Hexp, JSNumberFacts.gt_of_Z by lia.
  by rewrite (proj2 (Z.ltb_lt _ _)) by lia.
Qed.

Lemma negative_duration_is_born_expired_witness :
  snd (verify_qr
         (fst (generate_qr Sample.store (Sample.form "010-1234-5678" "-5")
                 (Sample.delivery_up 1700000000000 8)))
         (Some (Uuid.uuidv4 8)) (Sample.log_up 1700000000000))
  = Responded 410 ExpiredCodeText.
Proof.
  apply (negative_duration_is_born_expired Sample.store
           (Sample.form "010-1234-5678" "-5") (Sample.delivery_up 1700000000000 8)
           "010-1234-5678"%string "-5"%string 5);
    try reflexivity; try discriminate; by vm_compute.
Defined.

(** ** The fetched listing *)

(** X3. What the event log lists has no effect on a verification: with
    any two listings that are neither [null] nor [undefined], the store and
    the response are the same. *)
Theorem listing_content_is_ignored (store : Store) q env data1 data2 :
  nullish data1 = false ->
  nullish data2 = false ->
  verify_qr store q (with_listing env (Fulfilled data1))
  = verify_qr store q (with_listing env (Fulfilled data2)).
Proof.
  intros [n1 H1]%precheck_not_nullish [n2 H2]%precheck_not_nullish.
  unfold verify_qr, verify_run.
  cbn [with_listing ver_now ver_timestamp axios_get axios_post].
  by rewrite H1, H2.
Qed.

Lemma listing_content_is_ignored_witness :
  verify_qr Sample.store (Some Sample.token)
    (with_listing (Sample.log_up 2000) (Fulfilled (DataArray 0)))
  = verify_qr Sample.store (Some Sample.token)
      (with_listing (Sample.log_up 2000) (Fulfilled DataOther)).
Proof.
  apply (listing_content_is_ignored Sample.store (Some Sample.token)
           (Sample.log_up 2000) (DataArray 0) DataOther); reflexivity.
Defined.

(** X4. A listing that is [null] or [undefined] stops a verification like
    a fetch that failed: the handler throws the error of line 140, built
    from the [TypeError] of line 134, nothing is posted and the store is not
    written. *)
Theorem nullish_listing_aborts (store : Store) token r env data :
  token <> EmptyString ->
  store !! token = Some r ->
  status r = Pending ->
  isValid r = true ->
  JSNumber.gt (JSNumber.of_Z (ver_now env)) (expiresAt r) = false ->
  axios_get env = Fulfilled data ->
  nullish data = true ->
  exists cause,
    verify_io store (Some token) env = (store, GetFailed cause, [GetEvents])
    /\ verify_qr store (Some token) env = (store, Threw (IdUndeterminedError cause)).
Proof.
  intros Hne Hr Hs Hv Hgt Hget [cause Hpre]%precheck_nullish.
  exists cause. rewrite <- Hget in Hpre.
  rewrite verify_qr_run, (verify_run_own _ _ r) by done.
  unfold verify_io. rewrite falsy_some_false by done.
  cbn [default from_option id]. rewrite (get_property_own _ _ _ Hr).
  rewrite Hgt, Hv, Hs, Hpre. cbn [negb].
  by rewrite bool_decide_eq_true_2.
Qed.

Lemma nullish_listing_aborts_witness :
  exists cause,
    verify_io Sample.store (Some Sample.token)
      (with_listing (Sample.log_up 2000) (Fulfilled DataNull))
    = (Sample.store, GetFailed cause, [GetEvents])
    /\ verify_qr Sample.store (Some Sample.token)
         (with_listing (Sample.log_up 2000) (Fulfilled DataNull))
       = (Sample.store, Threw (IdUndeterminedError cause)).
Proof.
  apply (nullish_listing_aborts Sample.store Sample.token Sample.record
           (with_listing (Sample.log_up 2000) (Fulfilled DataNull)) DataNull);
    try reflexivity; discriminate.
Defined.

(** ** The calls to the event log *)

(** X5. The handler calls the event log only for a token whose record is in
    the store, valid, [Pending] and not past its expiry: a request that is
    refused for a missing, unknown, expired or used token makes no call. *)
Theorem guards_come_before_the_event_log (store : Store) q env :
  fst (verify_io store q env) = verify_run store q env
  /\ (snd (verify_io store q env) <> [] ->
      exists token r,
        q = Some token /\ store !! token = Some r
        /\ isValid r = true /\ status r = Pending
        /\ JSNumber.gt (JSNumber.of_Z (ver_now env)) (expiresAt r) = false)
  /\ (forall kind,
        failure_kind (snd (verify_run store q env)) = Some kind ->
        upstream kind = false ->
        snd (verify_io store q env) = []).
Proof.
  split; [apply verify_io_run|].
  scan_paths q store env; cbn [fst snd failure_kind]; split;
    try (by intros []); try (by intros kind [= <-]);
    try (intros _; by exists token, r); try done.
Qed.

Lemma guards_come_before_the_event_log_witness :
  snd (verify_io Sample.store (Some "no-such-token"%string) (Sample.log_up 2000))
  = [].
Proof.
  apply (proj2 (proj2 (guards_come_before_the_event_log Sample.store
           (Some "no-such-token"%string) (Sample.log_up 2000))) NotFound);
    reflexivity.
Defined.

(** ** The calls to the delivery libraries *)

(** X7. An issuance that is refused renders and sends nothing. When an SMS
    is sent, the QR image has been rendered before, for the very link the
    message carries; the link is the address of the verification endpoint
    with the stored token; and the message goes to the phone number of the
    stored record, which has no hyphen. *)
Theorem sms_follows_rendering (store : Store) req env :
  fst (generate_io store req env) = generate_qr store req env
  /\ (snd (generate_qr store req env) = Responded 400 AskForPhoneAndTime ->
      snd (generate_io store req env) = [])
  /\ (forall msg,
        SendSms msg ∈ snd (generate_io store req env) ->
        snd (generate_io store req env) = [RenderQr (sms_link msg); SendSms msg]
        /\ (exists image, toDataURL env (sms_link msg) = Fulfilled image)
        /\ sms_link msg
           = (PUBLIC_HOST env +:+ "/verify-qr?token="
              +:+ Uuid.uuidv4 (gen_random env))%string
        /\ (exists r,
              fst (generate_qr store req env) !! Uuid.uuidv4 (gen_random env)
              = Some r
              /\ phoneNumber r = sms_to msg)
        /\ ~ In "-"%char (list_ascii_of_string (sms_to msg))).
Proof.
  split; [apply generate_io_run|].
  rewrite <- generate_io_run. unfold generate_io.
  destruct (JSString.falsy _ || JSString.falsy _); cbn [fst snd].
  { split; [done|]. intros msg Hin. by apply elem_of_nil in Hin. }
  assert (Hcatch : forall e, generate_catch e <> Responded 400 AskForPhoneAndTime).
  { intros e. unfold generate_catch. by destruct (isAxiosError e). }
  destruct (toDataURL env _) as [image|e] eqn:Hqr; cbn [fst snd].
  - destruct (sendOne env _) as [u|e]; cbn [fst snd];
      (split; [intros H; try discriminate H; by apply Hcatch in H|]);
      intros msg Hin;
      repeat (apply elem_of_cons in Hin as [Heq|Hin]; [try discriminate Heq|]);
      try (by apply elem_of_nil in Hin);
      injection Heq as ->; cbn [sms_link sms_to];
      (split; [done|]; split; [by eexists|]; split; [done|]; split;
       [eexists; split; [apply lookup_insert_eq | done]
       |apply strip_hyphens_no_hyphen]).
  - split; [intros H; by apply Hcatch in H|].
    intros msg Hin.
    repeat (apply elem_of_cons in Hin as [Heq|Hin]; [try discriminate Heq|]).
    by apply elem_of_nil in Hin.
Qed.

Lemma sms_follows_rendering_witness :
  snd (generate_io Sample.store
         {| body_phoneNumber := None; body_validTime := Some "5"%string |}
         (Sample.delivery_up 1000 8)) = [].
Proof.
  apply (proj1 (proj2 (sms_follows_rendering Sample.store
           {| body_phoneNumber := None; body_validTime := Some "5"%string |}
           (Sample.delivery_up 1000 8)))).
  reflexivity.
Defined.

Example rendering_failure_sends_no_sms :
  snd (generate_io Sample.store (Sample.form "010-1234-5678" "5")
         (Sample.qr_down 1000 8))
  = [RenderQr "http://localhost:3000/verify-qr?token=00000000-0000-4000-8000-000000000008"].
Proof. reflexivity. Qed.

(** ** One token among the others *)

Section Frame.

Lemma get_property_lookup (store1 store2 : Store) token :
  store1 !! token = store2 !! token ->
  get_property store1 token = get_property store2 token.
Proof. unfold get_property. by intros ->. Qed.

(** The exit of a scan depends on the store through the record of the
    scanned token only. *)
Lemma verify_run_lookup (store1 store2 : Store) token env :
  store1 !! token = store2 !! token ->
  snd (verify_run store1 (Some token) env) = snd (verify_run store2 (Some token) env).
Proof.
  intros Heq. unfold verify_run.
  destruct (JSString.falsy (Some token)); [done|]. cbn [default from_option id].
  rewrite (get_property_lookup _ _ _ Heq).
  destruct (get_property store2 token) as [r| |]; [|done ..].
  destruct (JSNumber.gt _ _); [done|].
  destruct (negb (isValid r)); [done|].
  destruct (negb _); [done|].
  destruct (precheck _); [done|]. by destruct (axios_post _ _).
Qed.

(** A scan either leaves the store as it is or replaces the record of the
    scanned token. *)
Lemma verify_run_effect (store : Store) token env :
  fst (verify_run store (Some token) env) = store
  \/ exists r r', store !! token = Some r
                  /\ fst (verify_run store (Some token) env) = <[token := r']> store.
Proof.
  destruct (verify_run store (Some token) env) as [store' x] eqn:Hrun.
  apply verify_run_cases in Hrun
    as [(-> & _)|[(t & r0 & [= <-] & Hr0 & _ & -> & _)
                 |(t & r0 & n & [= <-] & Hr0 & _ & _ & _ & _ & _ & -> & _)]];
    cbn [fst]; eauto.
Qed.

(** A scan goes through an entry written under another token. *)
Lemma verify_run_insert_ne (store : Store) token env other v :
  other <> token ->
  verify_run (<[other := v]> store) (Some token) env
  = (<[other := v]> (fst (verify_run store (Some token) env)),
     snd (verify_run store (Some token) env)).
Proof.
  intros Hne. unfold verify_run.
  destruct (JSString.falsy (Some token)); [done|]. cbn [default from_option id].
  rewrite (get_property_lookup (<[other := v]> store) store token)
    by (by apply lookup_insert_ne).
  destruct (get_property store token) as [r| |]; [|done ..].
  destruct (JSNumber.gt _ _); [cbn [fst snd]; by rewrite insert_insert_ne|].
  destruct (negb (isValid r)); [done|].
  destruct (negb _); [done|].
  destruct (precheck _); [done|].
  destruct (axios_post _ _); [|done]. cbn [fst snd]. by rewrite insert_insert_ne.
Qed.

Lemma verify_qr_frame (store : Store) q env other :
  q <> Some other ->
  fst (verify_qr store q env) !! other = store !! other.
Proof.
  intros Hq. rewrite verify_qr_run. cbn [fst].
  destruct (verify_run store q env) as [store' x] eqn:Hrun. cbn [fst].
  apply verify_run_cases in Hrun
    as [(-> & _)|[(t & r0 & -> & Hr0 & _ & -> & _)
                 |(t & r0 & n & -> & Hr0 & _ & _ & _ & _ & _ & -> & _)]];
    [done | |]; apply lookup_insert_ne; congruence.
Qed.

Lemma verify_qr_dom (store : Store) q env :
  dom (fst (verify_qr store q env)) = dom store.
Proof.
  rewrite verify_qr_run. cbn [fst].
  destruct (verify_run store q env) as [store' x] eqn:Hrun. cbn [fst].
  apply verify_run_cases in Hrun
    as [(-> & _)|[(t & r0 & -> & Hr0 & _ & -> & _)
                 |(t & r0 & n & -> & Hr0 & _ & _ & _ & _ & _ & -> & _)]];
    [done | |]; rewrite dom_insert_L; apply elem_of_dom_2 in Hr0; set_solver.
Qed.

End Frame.

(** X8. A scan reads and writes the record of the scanned token only: the
    records of all other tokens are as before, and the store holds the
    same tokens as before, none added and none removed. *)
Theorem verification_touches_one_record (store : Store) q env :
  dom (fst (verify_qr store q env)) = dom store
  /\ (forall other,
        q <> Some other ->
        fst (verify_qr store q env) !! other = store !! other)
  /\ (forall (store2 : Store) token,
        q = Some token ->
        store2 !! token = store !! token ->
        snd (verify_qr store2 q env) = snd (verify_qr store q env)).
Proof.
  split; [apply verify_qr_dom|]. split; [intros; by apply verify_qr_frame|].
  intros store2 token -> Heq. rewrite !verify_qr_run. cbn [snd].
  by rewrite (verify_run_lookup _ _ _ _ Heq).
Qed.

Lemma verification_touches_one_record_witness :
  fst (verify_qr Sample.store (Some "no-such-token"%string) (Sample.log_up 2000))
    !! Sample.token
  = Sample.store !! Sample.token.
Proof.
  apply (proj1 (proj2 (verification_touches_one_record Sample.store
           (Some "no-such-token"%string) (Sample.log_up 2000)))).
  discriminate.
Defined.

(** X9. Scans of two distinct tokens commute: in either order each scan
    gets the same response, and the store is the same in the end. *)
Theorem scans_of_distinct_tokens_commute (store : Store) t1 t2 env1 env2 :
  t1 <> t2 ->
  snd (verify_qr (fst (verify_qr store (Some t1) env1)) (Some t2) env2)
  = snd (verify_qr store (Some t2) env2)
  /\ snd (verify_qr (fst (verify_qr store (Some t2) env2)) (Some t1) env1)
     = snd (verify_qr store (Some t1) env1)
  /\ fst (verify_qr (fst (verify_qr store (Some t1) env1)) (Some t2) env2)
     = fst (verify_qr (fst (verify_qr store (Some t2) env2)) (Some t1) env1).
Proof.
  intros Hne. rewrite !verify_qr_run. cbn [fst snd].
  destruct (verify_run_effect store t1 env1) as [H1|(r1 & r1' & _ & H1)];
    destruct (verify_run_effect store t2 env2) as [H2|(r2 & r2' & _ & H2)];
    rewrite H1, H2;
    rewrite ?verify_run_insert_ne by done; cbn [fst snd];
    rewrite ?H1, ?H2; repeat split; try done.
  by rewrite insert_insert_ne.
Qed.

Lemma scans_of_distinct_tokens_commute_witness :
  fst (verify_qr (fst (verify_qr Sample.store (Some Sample.token) (Sample.log_up 2000)))
         (Some "constructor"%string) (Sample.log_up 3000))
  = fst (verify_qr (fst (verify_qr Sample.store (Some "constructor"%string)
                           (Sample.log_up 3000)))
           (Some Sample.token) (Sample.log_up 2000)).
Proof.
  apply (scans_of_distinct_tokens_commute Sample.store Sample.token
           "constructor"%string (Sample.log_up 2000) (Sample.log_up 3000)).
  discriminate.
Defined.

(** ** Stores built by the handlers *)

Section Reachable.

Lemma fst_serve_cons (store : Store) rq rest :
  fst (serve store (rq :: rest)) = fst (serve (fst (handle store rq)) rest).
Proof.
  cbn [serve]. destruct (handle store rq) as [store1 o]. cbn [fst snd].
  by destruct (serve store1 rest).
Qed.

Lemma snd_serve_cons (store : Store) rq rest :
  snd (serve store (rq :: rest))
  = snd (handle store rq) :: snd (serve (fst (handle store rq)) rest).
Proof.
  cbn [serve]. destruct (handle store rq) as [store1 o]. cbn [fst snd].
  by destruct (serve store1 rest).
Qed.

Lemma handle_dom (store : Store) rq :
  dom store ⊆ dom (fst (handle store rq))
  /\ (size (fst (handle store rq))
      <= size store + (if is_generate rq then 1 else 0))%nat.
Proof.
  destruct rq as [req env|q env]; cbn [handle is_generate].
  - rewrite generate_qr_store.
    destruct (JSString.falsy _ || JSString.falsy _); [split; [done | lia]|].
    split; [apply dom_insert_subseteq|].
    rewrite map_size_insert. destruct (store !! _); cbn; lia.
  - split; [by rewrite verify_qr_dom|].
    rewrite <- !size_dom, verify_qr_dom. lia.
Qed.

Lemma new_record_wf phone validTime now :
  record_wf (new_record (JSString.strip_hyphens phone) validTime now).
Proof.
  unfold record_wf; cbn.
  split; [done|]. split; [done|]. split; [done|]. apply strip_hyphens_no_hyphen.
Qed.

Lemma invalidate_wf s r :
  s <> Pending -> record_wf r -> record_wf (invalidate s r).
Proof.
  intros Hs (_ & Hp & Hd & Hph). unfold record_wf; cbn.
  split; [split; [discriminate | by intros ?]|]. by split; [|split].
Qed.

Lemma handle_wf (store : Store) rq :
  store_wf store -> store_wf (fst (handle store rq)).
Proof.
  intros Hwf. destruct rq as [req env|q env]; cbn [handle].
  - rewrite generate_qr_store.
    destruct (JSString.falsy _ || JSString.falsy _); [done|].
    intros token r. rewrite lookup_insert.
    case_decide as Heq; [|apply Hwf].
    intros [= <-]. split; [by eexists | apply new_record_wf].
  - rewrite verify_qr_run. cbn [fst].
    destruct (verify_run store q env) as [store' x] eqn:Hrun. cbn [fst].
    apply verify_run_cases in Hrun
      as [(-> & _)|[(t & r0 & -> & Hr0 & _ & -> & _)
                   |(t & r0 & n & -> & Hr0 & _ & _ & _ & _ & _ & -> & _)]];
      [done | |];
      intros token r; rewrite lookup_insert;
      (case_decide as Heq; [|apply Hwf]);
      intros [= <-]; subst token; destruct (Hwf t r0 Hr0) as [Hkey Hrec];
      (split; [done | by apply invalidate_wf]).
Qed.

Lemma serve_wf rqs : forall (store : Store),
  store_wf store -> store_wf (fst (serve store rqs)).
Proof.
  induction rqs as [|rq rest IH]; intros store Hwf; [done|].
  rewrite fst_serve_cons. by apply IH, handle_wf.
Qed.

Lemma empty_wf : store_wf ∅.
Proof. intros token r Hr. by rewrite lookup_empty in Hr. Qed.

(** In a well-formed store no name of [Object.prototype] has a record. *)
Lemma wf_no_inherited (store : Store) token :
  store_wf store -> token ∈ object_prototype_names -> store !! token = None.
Proof.
  intros Hwf Hin. destruct (store !! token) as [r|] eqn:Hr; [|done].
  destruct (Hwf token r Hr) as [[rnd ->] _].
  by apply uuidv4_not_inherited in Hin.
Qed.

(** On a well-formed store the check of line 124 does not fire. *)
Lemma wf_not_pending_exit (store : Store) q env s :
  store_wf store -> snd (verify_run store q env) <> NotPending s.
Proof.
  intros Hwf. scan_paths q store env; cbn [snd]; try discriminate.
  destruct (Hwf _ _ Hget) as [_ [[Hvs _] _]]. intros _. by apply Hs, Hvs.
Qed.

Lemma handle_never_status_text (store : Store) rq s :
  store_wf store ->
  snd (handle store rq) <> Responded 409 (UsedCodeStatusText s).
Proof.
  intros Hwf. destruct rq as [req env|q env]; cbn [handle].
  - unfold generate_qr, generate_catch.
    destruct (JSString.falsy _ || JSString.falsy _); [discriminate|].
    destruct (toDataURL _ _) as [img|e];
      [destruct (sendOne _ _) as [u|e]|]; cbn [snd];
      try discriminate; by destruct (isAxiosError e).
  - rewrite verify_qr_run. cbn [snd].
    pose proof (wf_not_pending_exit store q env) as Hx.
    destruct (snd (verify_run store q env)) eqn:E; cbn; try discriminate.
    intros [= ->]. by eapply Hx.
Qed.

End Reachable.

(** X10. No request removes a record: along any sequence of requests
    every token of the store stays in the store, and the store grows by at
    most one record for each issuance in the sequence. *)
Theorem store_never_forgets (store : Store) rqs :
  dom store ⊆ dom (fst (serve store rqs))
  /\ (size (fst (serve store rqs))
      <= size store + length (List.filter is_generate rqs))%nat.
Proof.
  revert store. induction rqs as [|rq rest IH]; intros store.
  - split; [done | cbn; lia].
  - rewrite fst_serve_cons.
    destruct (handle_dom store rq) as [Hd Hs].
    destruct (IH (fst (handle store rq))) as [Hd' Hs'].
    split; [set_solver|].
    cbn [List.filter]. destruct (is_generate rq); cbn [length]; lia.
Qed.

(** X11. Every store that the handlers build from the empty store is
    well formed: each token is a UUID printed by [uuidv4], and each record
    is valid exactly when it is [Pending], has the purpose "Visitor", the
    device "device" and a phone number without hyphen. The handlers keep
    any well-formed store well formed. *)
Theorem stores_stay_well_formed :
  (forall rqs, store_wf (fst (serve ∅ rqs)))
  /\ (forall (store : Store) rqs,
        store_wf store -> store_wf (fst (serve store rqs))).
Proof.
  split; [intros rqs; apply serve_wf, empty_wf | intros; by apply serve_wf].
Qed.

Lemma stores_stay_well_formed_witness :
  store_wf (fst (serve Sample.store
                   [Verify (Some Sample.token) (Sample.log_up 2000)])).
Proof.
  apply (proj2 stores_stay_well_formed).
  intros token r. unfold Sample.store. rewrite lookup_singleton.
  case_decide as Heq; [|discriminate]. intros [= <-]. subst token.
  split; [by exists 7%N | apply (new_record_wf "01012345678" "5" 1000)].
Defined.

(** X12. Starting from the empty store, the check of the status on
    line 124 never fires: no response of any sequence of requests is the
    "already used" text that names the status. *)
Theorem status_check_never_fires rqs s :
  Responded 409 (UsedCodeStatusText s) ∉ snd (serve ∅ rqs).
Proof.
  assert (H : forall (store : Store), store_wf store ->
            Responded 409 (UsedCodeStatusText s) ∉ snd (serve store rqs)).
  { induction rqs as [|rq rest IH]; intros store Hwf.
    - apply not_elem_of_nil.
    - rewrite snd_serve_cons. apply not_elem_of_cons. split.
      + intros Heq. by apply (handle_never_status_text store rq s Hwf).
      + by apply IH, handle_wf. }
  apply H, empty_wf.
Qed.

Lemma status_check_never_fires_witness :
  Responded 409 (UsedCodeStatusText Verified)
  ∉ snd (serve ∅ [Generate (Sample.form "010-1234-5678" "5")
                     (Sample.delivery_up 1000 8);
                   Verify (Some (Uuid.uuidv4 8)) (Sample.log_up 2000);
                   Verify (Some (Uuid.uuidv4 8)) (Sample.log_up 3000)]).
Proof.
  apply (status_check_never_fires
           [Generate (Sample.form "010-1234-5678" "5") (Sample.delivery_up 1000 8);
            Verify (Some (Uuid.uuidv4 8)) (Sample.log_up 2000);
            Verify (Some (Uuid.uuidv4 8)) (Sample.log_up 3000)] Verified).
Defined.

(** X13. Starting from the empty store, a scan of a token that bears the
    name of a member of [Object.prototype] is answered "already used"
    (409), not "invalid code" (404), and the store is not written. *)
Theorem prototype_names_are_answered_409 rqs token env :
  token ∈ object_prototype_names ->
  verify_qr (fst (serve ∅ rqs)) (Some token) env
  = (fst (serve ∅ rqs), Responded 409 UsedCodeText).
Proof.
  intros Hin. apply inherited_name_is_already_used; [done|].
  apply wf_no_inherited; [apply serve_wf, empty_wf | done].
Qed.

Lemma prototype_names_are_answered_409_witness :
  verify_qr (fst (serve ∅ [Generate (Sample.form "010-1234-5678" "5")
                             (Sample.delivery_up 1000 8)]))
    (Some "toString"%string) (Sample.log_up 2000)
  = (fst (serve ∅ [Generate (Sample.form "010-1234-5678" "5")
                     (Sample.delivery_up 1000 8)]),
     Responded 409 UsedCodeText).
Proof.
  apply (prototype_names_are_answered_409
           [Generate (Sample.form "010-1234-5678" "5") (Sample.delivery_up 1000 8)]
           "toString"%string (Sample.log_up 2000)).
  compute_done.
Defined.

(** ** A token and the requests about other tokens *)

Section Independence.

Lemma handle_leaves_alone (store : Store) rq token r :
  fresh_tokens store [rq] ->
  scans token rq = false ->
  store !! token = Some r ->
  fst (handle store rq) !! token = Some r.
Proof.
  intros [Hfresh _] Hscan Hr. destruct rq as [req env|q env]; cbn [handle].
  - rewrite generate_qr_store.
    destruct (JSString.falsy _ || JSString.falsy _) eqn:Hf; [done|].
    rewrite lookup_insert_ne; [done|]. specialize (Hfresh eq_refl). congruence.
  - rewrite verify_qr_frame; [done|].
    intros ->. cbn [scans] in Hscan. by rewrite bool_decide_eq_true_2 in Hscan.
Qed.

Lemma is_success_exit x :
  is_success (outcome_of_exit x) = true -> exists phone, x = Success phone.
Proof. destruct x; cbn; try discriminate. eauto. Qed.

(** Once the record of a token is not valid, no scan of the token
    succeeds. *)
Lemma verified_count_invalid token rqs : forall (store : Store) r,
  fresh_tokens store rqs ->
  store !! token = Some r ->
  isValid r = false ->
  verified_count token store rqs = 0%nat.
Proof.
  induction rqs as [|rq rest IH]; intros store r Hfresh Hr Hv; [done|].
  destruct Hfresh as [Hrq Hrest].
  destruct (handle_evolves store rq token r) as (r1 & Hr1 & Hev); [by split|done|].
  cbn [verified_count].
  rewrite (IH _ r1 Hrest Hr1) by (by apply Hev).
  destruct (scans token rq) eqn:Hscan; [|done].
  destruct rq as [req env|[t|] env]; try discriminate Hscan.
  cbn [scans] in Hscan. apply bool_decide_eq_true_1 in Hscan as ->.
  cbn [handle]. rewrite verify_qr_run. cbn [snd andb].
  destruct (is_success _) eqn:Hsucc; [|done].
  apply is_success_exit in Hsucc as [phone Hx].
  by apply (verify_run_invalid store token r env Hr Hv) in Hx.
Qed.

End Independence.

(** X14. Requests about other tokens leave a token alone: after any
    sequence of issuances (with tokens that [uuidv4] does not repeat) and of
    scans of other tokens, the record of the token is the same, and so is
    the response to a scan of it. *)
Theorem other_requests_leave_a_token_alone (store : Store) rqs token r :
  fresh_tokens store rqs ->
  Forall (fun rq => scans token rq = false) rqs ->
  store !! token = Some r ->
  fst (serve store rqs) !! token = Some r
  /\ (forall env,
        snd (verify_qr (fst (serve store rqs)) (Some token) env)
        = snd (verify_qr store (Some token) env)).
Proof.
  intros Hfresh Hscans Hr.
  assert (Hsame : fst (serve store rqs) !! token = Some r).
  { revert store Hfresh Hr.
    induction Hscans as [|rq rest Hrq _ IH]; intros store Hfresh Hr; [done|].
    destruct Hfresh as [Hf Hrest].
    rewrite fst_serve_cons. apply IH; [done|].
    by apply handle_leaves_alone. }
  split; [done|]. intros env. rewrite !verify_qr_run. cbn [snd].
  f_equal. apply verify_run_lookup. congruence.
Qed.

Lemma other_requests_leave_a_token_alone_witness :
  fst (serve Sample.store
         [Generate (Sample.form "010-1234-5678" "5") (Sample.delivery_up 1000 8);
          Verify (Some (Uuid.uuidv4 8)) (Sample.log_up 2000)])
    !! Sample.token
  = Some Sample.record.
Proof.
  apply (other_requests_leave_a_token_alone Sample.store
           [Generate (Sample.form "010-1234-5678" "5") (Sample.delivery_up 1000 8);
            Verify (Some (Uuid.uuidv4 8)) (Sample.log_up 2000)]
           Sample.token Sample.record).
  - cbn [fresh_tokens]. repeat split.
  - repeat constructor.
  - reflexivity.
Defined.

(** X15. Along any sequence of requests in which [uuidv4] does not repeat
    a token, and from any store, at most one scan of a given token is
    answered with the success page. *)
Theorem at_most_one_success (store : Store) rqs token :
  fresh_tokens store rqs ->
  (verified_count token store rqs <= 1)%nat.
Proof.
  revert store. induction rqs as [|rq rest IH]; intros store Hfresh; [cbn; lia|].
  destruct Hfresh as [Hrq Hrest]. cbn [verified_count].
  destruct (scans token rq && is_success (snd (handle store rq))) eqn:Hhit;
    [|specialize (IH _ Hrest); lia].
  apply andb_true_iff in Hhit as [Hscan Hsucc].
  destruct rq as [req env|[t|] env]; try discriminate Hscan.
  cbn [scans] in Hscan. apply bool_decide_eq_true_1 in Hscan as ->.
  cbn [handle] in *. rewrite verify_qr_run in *. cbn [fst snd] in *.
  apply is_success_exit in Hsucc as [phone Hx].
  destruct (verify_run store (Some token) env) as [store' x] eqn:Hrun.
  cbn [fst snd] in *. subst x.
  apply verify_run_cases in Hrun
    as [(_ & _ & Hno)|[(t & r0 & _ & _ & _ & _ & [=])
                      |(t & r0 & n & [= <-] & Hr0 & _ & _ & _ & _ & _ & -> & _)]];
    [by destruct (Hno phone)|].
  rewrite (verified_count_invalid token rest _ (invalidate Verified r0));
    [lia | done | apply lookup_insert_eq | done].
Qed.

Lemma at_most_one_success_witness :
  (verified_count Sample.token Sample.store
     [Verify (Some Sample.token) (Sample.log_up 2000);
      Verify (Some Sample.token) (Sample.log_up 3000)] <= 1)%nat.
Proof.
  apply (at_most_one_success Sample.store
           [Verify (Some Sample.token) (Sample.log_up 2000);
            Verify (Some Sample.token) (Sample.log_up 3000)] Sample.token).
  cbn [fresh_tokens]. repeat split.
Defined.

(** ** The phone number and the token *)

Section PhoneAndToken.

Lemma strip_hyphens_all_hyphens s :
  (forall c, In c (list_ascii_of_string s) -> c = "-"%char) ->
  JSString.strip_hyphens s = EmptyString.
Proof.
  induction s as [|c rest IH]; intros Hall; [done|].
  cbn [JSString.strip_hyphens].
  rewrite (Hall c) by (by left). cbn [Ascii.eqb Bool.eqb].
  apply IH. intros c' Hin. apply Hall. by right.
Qed.

Lemma generate_catch_500 e : caller_status (generate_catch e) = Some 500%nat.
Proof. unfold generate_catch. by destruct (isAxiosError e). Qed.

Lemma hex_digit_token_char n : token_char (Uuid.hex_digit n) = true.
Proof.
  destruct n as [|p]; [reflexivity|].
  do 4 (destruct p as [p|p|]; try reflexivity).
Qed.

End PhoneAndToken.

(** X16. The check for a missing phone number reads the input before its
    hyphens are removed: a phone number made of hyphens only is not
    refused, and the record is stored with an empty phone number, to which
    the SMS, if one is sent, is addressed. *)
Theorem hyphen_only_phone_is_accepted (store : Store) req env phone validTime :
  body_phoneNumber req = Some phone -> phone <> EmptyString ->
  body_validTime req = Some validTime -> validTime <> EmptyString ->
  (forall c, In c (list_ascii_of_string phone) -> c = "-"%char) ->
  caller_status (snd (generate_qr store req env)) <> Some 400%nat
  /\ (exists r,
        fst (generate_qr store req env) !! Uuid.uuidv4 (gen_random env) = Some r
        /\ phoneNumber r = EmptyString)
  /\ (forall msg,
        SendSms msg ∈ snd (generate_io store req env) -> sms_to msg = EmptyString).
Proof.
  intros Hp Hpne Hv Hvne Hall.
  pose proof (strip_hyphens_all_hyphens phone Hall) as Hstrip.
  split; [|split].
  - unfold generate_qr. rewrite Hp, Hv, !falsy_some_false by done.
    cbn [orb]. destruct (toDataURL _ _) as [img|e];
      [destruct (sendOne _ _) as [u|e]|]; cbn [snd];
      rewrite ?generate_catch_500; cbn; discriminate.
  - rewrite (generate_qr_stores _ _ _ _ _ Hp Hpne Hv Hvne).
    eexists. split; [apply lookup_insert_eq|]. done.
  - intros msg. unfold generate_io. rewrite Hp, Hv, !falsy_some_false by done.
    cbn [orb default from_option id]. rewrite Hstrip.
    destruct (toDataURL _ _) as [img|e];
      [destruct (sendOne _ _) as [u|e]|]; cbn [snd]; intros Hin;
      repeat (apply elem_of_cons in Hin as [Heq|Hin]; [try discriminate Heq|]);
      try (by apply elem_of_nil in Hin);
      by injection Heq as ->.
Qed.

Lemma hyphen_only_phone_is_accepted_witness :
  exists r,
    fst (generate_qr Sample.store (Sample.form "---" "5") (Sample.delivery_up 1000 8))
      !! Uuid.uuidv4 8 = Some r
    /\ phoneNumber r = EmptyString.
Proof.
  apply (hyphen_only_phone_is_accepted Sample.store (Sample.form "---" "5")
           (Sample.delivery_up 1000 8) "---"%string "5"%string);
    try reflexivity; try discriminate.
  intros c [<-|[<-|[<-|[]]]]; reflexivity.
Defined.

(** X17. The token of an issuance has 36 characters, hyphens at the
    positions 8, 13, 18 and 23, the version digit 4 at position 14, and
    apart from the hyphens only the digits [0] to [9] and the letters [a]
    to [f]; so the link of line 69 carries it as it is, and it is neither
    empty nor a name of [Object.prototype]. *)
Theorem token_format rnd :
  String.length (Uuid.uuidv4 rnd) = 36%nat
  /\ String.get 8 (Uuid.uuidv4 rnd) = Some "-"%char
  /\ String.get 13 (Uuid.uuidv4 rnd) = Some "-"%char
  /\ String.get 18 (Uuid.uuidv4 rnd) = Some "-"%char
  /\ String.get 23 (Uuid.uuidv4 rnd) = Some "-"%char
  /\ String.get 14 (Uuid.uuidv4 rnd) = Some "4"%char
  /\ Forall (fun c => token_char c = true) (list_ascii_of_string (Uuid.uuidv4 rnd))
  /\ Uuid.uuidv4 rnd <> EmptyString
  /\ Uuid.uuidv4 rnd ∉ object_prototype_names.
Proof.
  split; [reflexivity|]. do 4 (split; [reflexivity|]).
  split; [|split; [|split; [discriminate | apply uuidv4_not_inherited]]].
  - unfold Uuid.uuidv4, Uuid.byte_to_hex. cbn [String.get].
    rewrite N.shiftr_lor, N.shiftr_land.
    change (N.shiftr 15 4) with 0%N. rewrite N.land_0_r. reflexivity.
  - unfold Uuid.uuidv4, Uuid.byte_to_hex. cbn [list_ascii_of_string].
    repeat (apply Forall_cons; split;
            [first [apply hex_digit_token_char | reflexivity]|]).
    by apply Forall_nil.
Qed.

(** ** Durations written in decimal *)

Section Decimal.

Lemma radix_prefix_decimal_acc d : forall p,
  JSString.radix_prefix 10 (NilEmpty.string_of_uint d) (Some (Z.pos p))
  = Some (Z.pos (Pos.of_uint_acc d p)).
Proof.
  induction d; intros p; cbn [NilEmpty.string_of_uint Pos.of_uint_acc];
    [reflexivity|..];
    cbn [JSString.radix_prefix];
    match goal with
    | |- context [JSString.digit_value ?c] =>
        let v := eval vm_compute in (JSString.digit_value c) in
        change (JSString.digit_value c) with v
    end;
    cbn [Z.ltb Z.compare Pos.compare Pos.compare_cont default from_option id];
    rewrite <- IHd; do 2 f_equal; lia.
Qed.

Lemma radix_prefix_decimal d :
  JSString.radix_prefix 10 (NilEmpty.string_of_uint d) (Some 0)
  = Some (Z.of_N (Pos.of_uint d)).
Proof.
  induction d; cbn [NilEmpty.string_of_uint Pos.of_uint]; [reflexivity|..];
    cbn [JSString.radix_prefix];
    match goal with
    | |- context [JSString.digit_value ?c] =>
        let v := eval vm_compute in (JSString.digit_value c) in
        change (JSString.digit_value c) with v
    end;
    cbn [Z.ltb Z.compare Pos.compare Pos.compare_cont default from_option id
         Z.mul Z.add];
    [exact IHd | apply radix_prefix_decimal_acc ..].
Qed.

Lemma parseInt_integer_digits d :
  d <> Nil ->
  JSString.parseInt_integer (NilEmpty.string_of_uint d)
  = match JSString.radix_prefix 10 (NilEmpty.string_of_uint d) (Some 0) with
    | Some n => Some (false, n)
    | None => None
    end.
Proof.
  destruct d as [|d|d|d|d|d|d|d|d|d|d]; [done|..]; intros _;
    try destruct d; reflexivity.
Qed.

(** [parseInt] reads a decimal numeral as the number it writes. *)
Lemma parseInt_integer_decimal n :
  JSString.parseInt_integer (decimal n) = Some (false, Z.of_N n).
Proof.
  unfold decimal.
  assert (Hnil : N.to_uint n <> Nil).
  { destruct n; [discriminate | apply Unsigned.to_uint_nonnil]. }
  rewrite <- (DecimalN.Unsigned.of_to n) at 2.
  replace (NilZero.string_of_uint (N.to_uint n))
    with (NilEmpty.string_of_uint (N.to_uint n))
    by (by destruct (N.to_uint n)).
  by rewrite parseInt_integer_digits, radix_prefix_decimal.
Qed.

Lemma decimal_nonempty n : decimal n <> EmptyString.
Proof.
  unfold decimal.
  assert (Hnil : N.to_uint n <> Nil).
  { destruct n; [discriminate | apply Unsigned.to_uint_nonnil]. }
  by destruct (N.to_uint n).
Qed.

End Decimal.

(** X18. [parseInt] reads the decimal numeral of [n] as [n], so that an
    issuance whose validity duration is typed as the decimal numeral of [n]
    stores a record that expires exactly [n * 60000] milliseconds after
    the issuance, as long as that time is a safe integer. *)
Theorem decimal_duration_is_honoured (store : Store) req env phone n :
  body_phoneNumber req = Some phone -> phone <> EmptyString ->
  body_validTime req = Some (decimal n) ->
  0 <= gen_now env ->
  gen_now env + Z.of_N n * 60000 <= JSNumber.max_safe_integer ->
  JSString.parseInt_integer (decimal n) = Some (false, Z.of_N n)
  /\ JSString.parseInt (decimal n) = JSNumber.of_Z (Z.of_N n)
  /\ exists r,
       fst (generate_qr store req env) !! Uuid.uuidv4 (gen_random env) = Some r
       /\ expiresAt r = JSNumber.of_Z (gen_now env + Z.of_N n * 60000).
Proof.
  intros Hp Hpne Hv Hnow Hsafe.
  pose proof (parseInt_integer_decimal n) as Hparse.
  split; [done|]. split; [by apply parseInt_of_integer|].
  rewrite (generate_qr_stores _ _ _ _ _ Hp Hpne Hv (decimal_nonempty n)).
  eexists. split; [apply lookup_insert_eq|].
  cbn [expiresAt new_record]. rewrite (parseInt_of_integer _ _ Hparse).
  apply expiry_time_exact; [done | lia | done].
Qed.

Lemma decimal_duration_is_honoured_witness :
  exists r,
    fst (generate_qr Sample.store (Sample.form "010-1234-5678" (decimal 90))
           (Sample.delivery_up 1700000000000 8)) !! Uuid.uuidv4 8 = Some r
    /\ expiresAt r = JSNumber.of_Z (1700000000000 + 90 * 60000).
Proof.
  apply (decimal_duration_is_honoured Sample.store
           (Sample.form "010-1234-5678" (decimal 90))
           (Sample.delivery_up 1700000000000 8) "010-1234-5678"%string 90%N);
    try reflexivity; try discriminate; by vm_compute.
Defined.

(** * The handlers between their awaits *)

(** ** Worlds and stores *)

Section LiveWorlds.

Lemma view_lookup (w : Live.World) token :
  Live.view w !! token = Live.objects w <$> Live.slots w !! token.
Proof. unfold Live.view. apply lookup_fmap. Qed.


Lemma view_alloc (w : Live.World) token r :
  Live.wf w ->
  Live.view (Live.alloc w token r) = <[token := r]> (Live.view w).
Proof.
  intros [Hlt _]. apply map_eq. intros t.
  rewrite lookup_insert, !view_lookup. cbn [Live.alloc Live.slots Live.objects].
  rewrite lookup_insert. case_decide as Ht.
  - cbn. by rewrite decide_True.
  - destruct (Live.slots w !! t) as [b|] eqn:Hb; [cbn|done].
    rewrite decide_False; [done|]. apply Hlt in Hb. lia.
Qed.

Lemma view_issue (w : Live.World) req env :
  Live.wf w ->
  Live.view (Live.issue w req env) = fst (generate_qr (Live.view w) req env).
Proof.
  intros Hwf. rewrite generate_qr_store. unfold Live.issue.
  destruct (JSString.falsy _ || JSString.falsy _); [done|]. by apply view_alloc.
Qed.

Lemma wf_empty : Live.wf Live.empty.
Proof. split; intros *; cbn; by rewrite lookup_empty. Qed.

Lemma wf_set_object (w : Live.World) a r :
  Live.wf w -> Live.wf (Live.set_object w a r).
Proof. done. Qed.

Lemma wf_alloc (w : Live.World) token r :
  Live.wf w -> Live.wf (Live.alloc w token r).
Proof.
  intros [Hlt Hinj]. split; cbn [Live.alloc Live.slots Live.next].
  - intros t a. rewrite lookup_insert. case_decide; [intros [= <-]; lia|].
    intros Ha%Hlt. lia.
  - intros t1 t2 a. rewrite !lookup_insert.
    repeat case_decide; subst; try done.
    + intros [= <-] Ha%Hlt. lia.
    + intros Ha%Hlt [= <-]. lia.
    + apply Hinj.
Qed.

Lemma wf_issue (w : Live.World) req env :
  Live.wf w -> Live.wf (Live.issue w req env).
Proof.
  intros Hwf. unfold Live.issue.
  destruct (JSString.falsy _ || JSString.falsy _); [done | by apply wf_alloc].
Qed.

(** What the arrival of a scan does: it writes at most the object of its
    own slot, and it parks at the address of that slot. *)
Lemma arrive_cases (w : Live.World) q now ts :
  (exists x, Live.arrive w q now ts = (w, inl x)
             /\ x <> PastExpiry /\ (forall p, x <> Success p))
  \/ (exists token a,
        q = Some token /\ Live.slots w !! token = Some a
        /\ JSNumber.gt (JSNumber.of_Z now) (expiresAt (Live.objects w a)) = true
        /\ Live.arrive w q now ts
           = (Live.set_object w a (invalidate Expired (Live.objects w a)),
              inl PastExpiry))
  \/ (exists token a,
        q = Some token /\ token <> EmptyString
        /\ Live.slots w !! token = Some a
        /\ JSNumber.gt (JSNumber.of_Z now) (expiresAt (Live.objects w a)) = false
        /\ isValid (Live.objects w a) = true
        /\ status (Live.objects w a) = Pending
        /\ Live.arrive w q now ts = (w, inr (Live.AtGet token a ts))).
Proof.
  unfold Live.arrive.
  destruct (JSString.falsy q) eqn:Hq; [left; by eexists|].
  destruct q as [token|]; [|discriminate Hq]. cbn [default from_option id].
  destruct (Live.slots w !! token) as [a|] eqn:Hslot.
  - destruct (JSNumber.gt _ _) eqn:Hgt; [right; left; by exists token, a|].
    destruct (isValid (Live.objects w a)) eqn:Hv; cbn [negb];
      [|left; by eexists].
    case_bool_decide as Hs; cbn [negb]; [|left; by eexists].
    right. right. exists token, a. repeat split; try done.
    by destruct token.
  - case_bool_decide; left; by eexists.
Qed.

Lemma sound_step (sys : Live.System) ev :
  Live.sound sys -> Live.sound (fst (Live.step sys ev)).
Proof.
  intros [Hwf Hpark]. destruct ev as [id q now ts|id reply|id respond|req env];
    cbn [Live.step].
  - destruct (Live.waiting sys !! id) eqn:Hw; [done|].
    destruct (arrive_cases (Live.world sys) q now ts)
      as [(x & -> & _)|[(t & a & _ & Hslot & _ & ->)
                       |(t & a & _ & _ & Hslot & _ & _ & _ & ->)]];
      cbn [fst]; split; cbn [Live.world Live.waiting]; try done.
    intros id' p. rewrite lookup_insert. case_decide; [|apply Hpark].
    intros [= <-]. cbn. by apply Hwf in Hslot.
  - destruct (Live.waiting sys !! id) as [[t a ts|t a payload]|] eqn:Hw; [|done ..].
    destruct (precheck reply); cbn [fst]; split; cbn [Live.world Live.waiting];
      try done; intros id' p.
    + rewrite lookup_delete. case_decide; [done | apply Hpark].
    + rewrite lookup_insert. case_decide; [|apply Hpark].
      intros [= <-]. by apply Hpark in Hw.
  - destruct (Live.waiting sys !! id) as [[t a ts|t a payload]|] eqn:Hw; [done| |done].
    destruct (respond payload); cbn [fst]; split; cbn [Live.world Live.waiting];
      try done; intros id' p;
      (rewrite lookup_delete; case_decide; [done | apply Hpark]).
  - cbn [fst]. split; cbn [Live.world Live.waiting]; [by apply wf_issue|].
    intros id' p Hp. apply Hpark in Hp. unfold Live.issue.
    destruct (JSString.falsy _ || JSString.falsy _); cbn [Live.alloc Live.next]; lia.
Qed.

Lemma run_cons (sys : Live.System) ev rest :
  Live.run sys (ev :: rest)
  = (fst (Live.run (fst (Live.step sys ev)) rest),
     snd (Live.step sys ev) ++ snd (Live.run (fst (Live.step sys ev)) rest)).
Proof.
  cbn [Live.run]. destruct (Live.step sys ev) as [sys1 out1]. cbn [fst snd].
  by destruct (Live.run sys1 rest).
Qed.

Lemma sound_run events : forall (sys : Live.System),
  Live.sound sys -> Live.sound (fst (Live.run sys events)).
Proof.
  induction events as [|ev rest IH]; intros sys Hs; [done|].
  rewrite run_cons. cbn [fst]. by apply IH, sound_step.
Qed.

Lemma sound_empty : Live.sound {| Live.world := Live.empty; Live.waiting := ∅ |}.
Proof. split; [apply wf_empty|]. intros id p. cbn. by rewrite lookup_empty. Qed.

End LiveWorlds.

(** ** A scan that nothing interrupts *)


Section Alone.


End Alone.

(** ** Any schedule *)

Section Schedules.



(** A scan comes to wait at the fetch only by arriving, and its arrival
    sends the fetch. *)
Lemma waiting_at_get_step (sys : Live.System) ev id t a ts :
  Live.waiting (fst (Live.step sys ev)) !! id = Some (Live.AtGet t a ts) ->
  Live.waiting sys !! id = Some (Live.AtGet t a ts)
  \/ (exists q now,
        ev = Live.Arrives id q now ts
        /\ snd (Live.step sys ev) = [Live.Fetch id]).
Proof.
  destruct ev as [id0 q now ts0|id0 reply|id0 respond|req env]; cbn [Live.step].
  - destruct (Live.waiting sys !! id0) eqn:Hw; [by left|].
    destruct (arrive_cases (Live.world sys) q now ts0)
      as [(x & -> & _)|[(t0 & a0 & _ & _ & _ & ->)
                       |(t0 & a0 & _ & _ & _ & _ & _ & _ & ->)]];
      cbn [fst snd Live.waiting]; [by left ..|].
    rewrite lookup_insert. case_decide as Hid; [|by left].
    intros [= <- <- <-]. subst id0. right. by exists q, now.
  - destruct (Live.waiting sys !! id0) as [[t0 a0 ts0|t0 a0 payload]|] eqn:Hw;
      [|by left ..].
    destruct (precheck reply); cbn [fst Live.waiting].
    + rewrite lookup_delete. case_decide; [done | by left].
    + rewrite lookup_insert. case_decide; [done | by left].
  - destruct (Live.waiting sys !! id0) as [[t0 a0 ts0|t0 a0 payload]|] eqn:Hw;
      [by left| |by left].
    destruct (respond payload); cbn [fst Live.waiting];
      (rewrite lookup_delete; case_decide; [done | by left]).
  - by left.
Qed.

(** An event is posted by the step at which the fetch of a waiting scan
    settles with a listing, and it is made of the stored object as it is
    at that step. *)
Lemma post_step (sys : Live.System) ev id payload :
  Live.Post id payload ∈ snd (Live.step sys ev) ->
  snd (Live.step sys ev) = [Live.Post id payload]
  /\ exists reply token a ts n,
       ev = Live.GetSettles id reply
       /\ Live.waiting sys !! id = Some (Live.AtGet token a ts)
       /\ precheck reply = inr n
       /\ payload = externalEventPayload (Live.objects (Live.world sys) a) ts
       /\ Live.waiting (fst (Live.step sys ev)) !! id
          = Some (Live.AtPost token a payload).
Proof.
  destruct ev as [id0 q now ts0|id0 reply|id0 respond|req env]; cbn [Live.step].
  - destruct (Live.waiting sys !! id0); [by intros ?%elem_of_nil|].
    destruct (Live.arrive _ _ _ _) as [w [x|p]]; cbn [snd];
      intros [[=]|?%elem_of_nil]%elem_of_cons; done.
  - destruct (Live.waiting sys !! id0) as [[t0 a0 ts0|t0 a0 payload0]|] eqn:Hw;
      [|by intros ?%elem_of_nil ..].
    destruct (precheck reply) as [cause|n] eqn:Hpre; cbn [fst snd Live.waiting];
      intros [[=]|?%elem_of_nil]%elem_of_cons; try done.
    subst. split; [done|]. exists reply, t0, a0, ts0, n.
    by rewrite lookup_insert_eq.
  - destruct (Live.waiting sys !! id0) as [[t0 a0 ts0|t0 a0 payload0]|];
      [by intros ?%elem_of_nil| |by intros ?%elem_of_nil].
    destruct (respond payload0); cbn [snd];
      intros [[=]|?%elem_of_nil]%elem_of_cons; done.
  - cbn [snd]. intros [[=]|?%elem_of_nil]%elem_of_cons; done.
Qed.







End Schedules.





Section Traces.

(** An action of a run is the action of one of its steps. *)
Lemma elem_of_run act events : forall (sys : Live.System),
  act ∈ snd (Live.run sys events) ->
  exists before ev rest,
    events = before ++ ev :: rest
    /\ act ∈ snd (Live.step (fst (Live.run sys before)) ev).
Proof.
  induction events as [|ev rest IH]; intros sys; [by intros ?%elem_of_nil|].
  rewrite run_cons. cbn [snd]. intros [Hin|Hin]%elem_of_app.
  - by exists [], ev, rest.
  - apply IH in Hin as (before & ev' & rest' & -> & Hin).
    exists (ev :: before), ev', rest'. split; [done|]. by rewrite run_cons.
Qed.

(** A scan that waits at the fetch has arrived, with the time text it
    keeps, and its fetch has been sent. *)
Lemma waiting_at_get_run events : forall (sys : Live.System) id t a ts,
  Live.waiting (fst (Live.run sys events)) !! id = Some (Live.AtGet t a ts) ->
  Live.waiting sys !! id = Some (Live.AtGet t a ts)
  \/ (Live.Fetch id ∈ snd (Live.run sys events)
      /\ exists q now, Live.Arrives id q now ts ∈ events).
Proof.
  induction events as [|ev rest IH]; intros sys id t a ts; [by left|].
  rewrite run_cons. cbn [fst snd].
  intros [Hw|(Hf & q & now & Hin)]%IH.
  - apply waiting_at_get_step in Hw as [Hw|(q & now & -> & Hout)]; [by left|].
    right. rewrite Hout. split; [by left|]. exists q, now. by left.
  - right. split; [apply elem_of_app; by right|].
    exists q, now. by right.
Qed.

(** The fields that make a visitor event are those of every object, at
    every step. *)
Lemma visitor_invalidate s r :
  Live.visitor_record r -> Live.visitor_record (invalidate s r).
Proof. done. Qed.

Lemma visitor_step (sys : Live.System) ev :
  (forall a, Live.visitor_record (Live.objects (Live.world sys) a)) ->
  forall a, Live.visitor_record (Live.objects (Live.world (fst (Live.step sys ev))) a).
Proof.
  intros Hall.
  assert (Hset : forall a0 s a,
    Live.visitor_record
      (Live.objects (Live.set_object (Live.world sys) a0
                       (invalidate s (Live.objects (Live.world sys) a0))) a)).
  { intros a0 s a. cbn [Live.set_object Live.objects].
    case_decide; [by apply visitor_invalidate | done]. }
  destruct ev as [id q now ts|id reply|id respond|req env]; cbn [Live.step].
  - destruct (Live.waiting sys !! id); [done|].
    destruct (arrive_cases (Live.world sys) q now ts)
      as [(x & -> & _)|[(t & a0 & _ & _ & _ & ->)
                       |(t & a0 & _ & _ & _ & _ & _ & _ & ->)]];
      cbn [fst Live.world]; [done | apply Hset | done].
  - destruct (Live.waiting sys !! id) as [[t a0 ts|t a0 payload]|]; [|done ..].
    by destruct (precheck reply).
  - destruct (Live.waiting sys !! id) as [[t a0 ts|t a0 payload]|]; [done| |done].
    destruct (respond payload); cbn [fst Live.world]; [apply Hset | done].
  - cbn [fst Live.world]. unfold Live.issue.
    destruct (JSString.falsy _ || JSString.falsy _); [done|].
    intros a. cbn [Live.alloc Live.objects]. case_decide; [|done].
    repeat split. apply strip_hyphens_no_hyphen.
Qed.

Lemma visitor_run events : forall (sys : Live.System),
  (forall a, Live.visitor_record (Live.objects (Live.world sys) a)) ->
  forall a, Live.visitor_record (Live.objects (Live.world (fst (Live.run sys events))) a).
Proof.
  induction events as [|ev rest IH]; intros sys Hall; [done|].
  rewrite run_cons. cbn [fst]. by apply IH, visitor_step.
Qed.

Lemma visitor_start a :
  Live.visitor_record (Live.objects (Live.world Live.start) a).
Proof. repeat split. by intros []. Qed.

End Traces.

(** X6. When the handler posts an event, the scan arrived earlier and sent
    its fetch then, the fetch has just settled with a listing that is
    neither [null] nor [undefined], and the event is made at that moment,
    of the time text taken at the arrival and of the stored object as it
    is when the fetch settles: the status it carries is the one the
    object has then, not the one it had when the scan arrived. *)
Theorem event_is_posted_after_a_successful_fetch
    (sys0 : Live.System) before ev id payload :
  Live.waiting sys0 = ∅ ->
  Live.Post id payload ∈ snd (Live.step (fst (Live.run sys0 before)) ev) ->
  Live.Fetch id ∈ snd (Live.run sys0 before)
  /\ snd (Live.step (fst (Live.run sys0 before)) ev) = [Live.Post id payload]
  /\ exists reply token a ts n,
       ev = Live.GetSettles id reply
       /\ precheck reply = inr n
       /\ Live.waiting (fst (Live.run sys0 before)) !! id
          = Some (Live.AtGet token a ts)
       /\ (exists q now, Live.Arrives id q now ts ∈ before)
       /\ payload
          = externalEventPayload
              (Live.objects (Live.world (fst (Live.run sys0 before))) a) ts
       /\ data_status payload
          = status (Live.objects (Live.world (fst (Live.run sys0 before))) a).
Proof.
  intros Hempty Hin.
  apply post_step in Hin as (Hout & reply & token & a & ts & n
                             & -> & Hw & Hpre & -> & _).
  destruct (waiting_at_get_run _ _ _ _ _ _ Hw) as [H0|(Hf & Harr)].
  { by rewrite Hempty, lookup_empty in H0. }
  split; [done|]. split; [done|]. by exists reply, token, a, ts, n.
Qed.

Lemma event_is_posted_after_a_successful_fetch_witness :
  Live.Fetch 1
    ∈ snd (Live.run Sample.live_system
             [Live.Arrives 1 (Some Sample.token) 2000 "1970-01-01T00:00:02.000Z"]).
Proof.
  apply (event_is_posted_after_a_successful_fetch Sample.live_system
           [Live.Arrives 1 (Some Sample.token) 2000 "1970-01-01T00:00:02.000Z"]
           (Live.GetSettles 1 (Fulfilled (DataArray 3))) 1
           (externalEventPayload Sample.record "1970-01-01T00:00:02.000Z"));
    [reflexivity | vm_compute; repeat constructor].
Defined.

(** The status of a posted event is not always [Pending]: of two scans
    that overlap, the second one posts its event after the first one has
    written the record, and posts the status [Verified]; when the second
    scan arrives after the response to the first one, it posts nothing. *)
Example overlapping_scan_posts_the_written_status :
  Live.posted_statuses (snd (Live.run Sample.live_system Sample.overlapping_scans))
  = [Pending; Verified]
  /\ Live.posted_statuses (snd (Live.run Sample.live_system Sample.successive_scans))
     = [Pending].
Proof. by vm_compute. Qed.

(** X19. From the start of the server and under every schedule of
    issuances and scans, every event the handler posts is a visitor event
    of the one device: its purpose is "Visitor", its device "device", its
    phone number has no hyphen, and its time is the time text of the
    arrival of the scan that posts it. *)
Theorem posted_events_are_visitor_events events id payload :
  Live.Post id payload ∈ snd (Live.run Live.start events) ->
  data_purpose payload = "Visitor"%string
  /\ client_device_id payload = "device"%string
  /\ ~ In "-"%char (list_ascii_of_string (data_phone payload))
  /\ exists q now, Live.Arrives id q now (data_requested_at payload) ∈ events.
Proof.
  intros (before & ev & rest & -> & Hin)%elem_of_run.
  apply post_step in Hin as (_ & reply & token & a & ts & n
                             & -> & Hw & _ & -> & _).
  destruct (visitor_run before Live.start visitor_start a) as (Hp & Hd & Hph).
  cbn [externalEventPayload data_purpose client_device_id data_phone
       data_requested_at].
  split; [done|]. split; [done|]. split; [done|].
  destruct (waiting_at_get_run _ _ _ _ _ _ Hw) as [H0|(_ & q & now & Harr)].
  { unfold Live.start in H0. cbn [Live.waiting] in H0.
    by rewrite lookup_empty in H0. }
  exists q, now. apply elem_of_app. by left.
Qed.

Lemma posted_events_are_visitor_events_witness :
  data_purpose
    (externalEventPayload (new_record "01012345678" "5" 1000)
       "1970-01-01T00:00:02.000Z")
  = "Visitor"%string.
Proof.
  apply (posted_events_are_visitor_events
           [Live.Issues (Sample.form "010-1234-5678" "5") (Sample.delivery_up 1000 8);
            Live.Arrives 1 (Some (Uuid.uuidv4 8)) 2000 "1970-01-01T00:00:02.000Z";
            Live.GetSettles 1 (Fulfilled (DataArray 3))]
           1%nat).
  vm_compute. repeat constructor.
Defined.

(** ** Causes and statuses *)

Section Causes.

(** The statuses of two places where the handler ends, by their kinds. *)
Lemma exit_statuses x1 x2 k1 k2 :
  failure_kind x1 = Some k1 ->
  failure_kind x2 = Some k2 ->
  k1 <> k2 ->
  outcome_of_exit x1 <> outcome_of_exit x2
  /\ (upstream k1 && upstream k2 = false ->
      caller_status (outcome_of_exit x1) <> caller_status (outcome_of_exit x2))
  /\ (upstream k1 = true ->
      caller_status (outcome_of_exit x1) = None
      /\ exists e, outcome_of_exit x1 = Threw e)
  /\ (upstream k2 = true ->
      caller_status (outcome_of_exit x2) = None
      /\ exists e, outcome_of_exit x2 = Threw e).
Proof.
  destruct x1 as [| | | |s1|c1|e1|p1]; destruct x2 as [| | | |s2|c2|e2|p2];
    cbn [failure_kind outcome_of_exit caller_status];
    intros [= <-] [= <-] Hne; cbn [upstream andb];
    repeat split; try discriminate; try congruence; by eexists.
Qed.

(** For a token that is not the name of a member of [Object.prototype],
    the handler ends at the place of the cause for which the request
    fails. *)
Lemma failure_kind_is_cause (store : Store) q env :
  not_inherited q ->
  failure_kind (snd (verify_run store q env)) = failure_cause store q env.
Proof.
  intros Hq. destruct q as [[|c t]|]; [done| |done].
  unfold failure_cause.
  destruct (store !! String c t) as [r|] eqn:Hr.
  - rewrite (verify_run_own _ _ r) by done.
    destruct (JSNumber.gt _ _); [done|].
    destruct (isValid r); cbn [negb orb]; [|done].
    case_bool_decide; cbn [negb]; [|done].
    destruct (precheck (axios_get env)); [done|].
    by destruct (axios_post env _) as [[]|e].
  - unfold verify_run. cbn [JSString.falsy default from_option id].
    rewrite get_property_undefined; [done | done | by apply Hq].
Qed.

End Causes.

(** C6, as stated, fails: a failed fetch and a failed submission are two
    distinct failure causes, and in both the handler sends no status at
    all, because its promise rejects. *)
Lemma upstream_failures_have_the_same_status :
  failure_cause Sample.store (Some Sample.token) (Sample.log_unreadable 2000)
    = Some UpstreamUnavailable
  /\ failure_cause Sample.store (Some Sample.token) (Sample.log_unwritable 2000)
     = Some SubmissionFailure
  /\ UpstreamUnavailable <> SubmissionFailure
  /\ caller_status (snd (verify_qr Sample.store (Some Sample.token)
                           (Sample.log_unreadable 2000)))
     = caller_status (snd (verify_qr Sample.store (Some Sample.token)
                             (Sample.log_unwritable 2000))).
Proof. vm_compute. by repeat split. Qed.

(** It fails a second way, on a token that is the name of a member of
    [Object.prototype]: no record is stored for "constructor", the cause
    is [NotFound], and the request is answered 409 like the scan of a
    token that has been used, whose cause is [AlreadyConsumed]. *)
Lemma inherited_name_has_the_status_of_a_used_token :
  failure_cause Sample.store (Some "constructor"%string) (Sample.log_up 2000)
    = Some NotFound
  /\ failure_cause (<[Sample.token := invalidate Verified Sample.record]> Sample.store)
       (Some Sample.token) (Sample.log_up 2000)
     = Some AlreadyConsumed
  /\ caller_status (snd (verify_qr Sample.store (Some "constructor"%string)
                           (Sample.log_up 2000)))
     = Some 409%nat
  /\ caller_status
       (snd (verify_qr (<[Sample.token := invalidate Verified Sample.record]> Sample.store)
               (Some Sample.token) (Sample.log_up 2000)))
     = Some 409%nat.
Proof. vm_compute. by repeat split. Qed.

(** C6, amended. The cause of a failure is read off the request, the
    store, the clock and the event log, in the order of section 4.2 of the
    specification. Two verifications of tokens that are not names of
    members of [Object.prototype], which fail for distinct causes, get
    distinct status codes unless both causes come from the event log
    ([UpstreamUnavailable] and [SubmissionFailure]). For these two the
    handler sends no response and no status, its promise rejects; what
    leaves the handler still differs: the error built on line 140 for
    the fetch, the uncaught error of the call for the submission. *)
Theorem distinct_causes_distinct_statuses
    (store1 store2 : Store) q1 q2 env1 env2 k1 k2 :
  not_inherited q1 ->
  not_inherited q2 ->
  failure_cause store1 q1 env1 = Some k1 ->
  failure_cause store2 q2 env2 = Some k2 ->
  k1 <> k2 ->
  snd (verify_qr store1 q1 env1) <> snd (verify_qr store2 q2 env2)
  /\ (upstream k1 && upstream k2 = false ->
      caller_status (snd (verify_qr store1 q1 env1))
        <> caller_status (snd (verify_qr store2 q2 env2)))
  /\ (upstream k1 = true ->
      caller_status (snd (verify_qr store1 q1 env1)) = None
      /\ exists e, snd (verify_qr store1 q1 env1) = Threw e)
  /\ (upstream k2 = true ->
      caller_status (snd (verify_qr store2 q2 env2)) = None
      /\ exists e, snd (verify_qr store2 q2 env2) = Threw e).
Proof.
  intros Hq1 Hq2 Hk1 Hk2 Hne.
  rewrite <- failure_kind_is_cause in Hk1, Hk2 by done.
  rewrite !verify_qr_run. cbn [snd].
  exact (exit_statuses _ _ _ _ Hk1 Hk2 Hne).
Qed.

Lemma distinct_causes_distinct_statuses_witness :
  caller_status (snd (verify_qr Sample.store (Some "no-such-token"%string)
                        (Sample.log_up 2000)))
    <> caller_status (snd (verify_qr Sample.store (Some Sample.token)
                             (Sample.log_unreadable 2000))).
Proof.
  apply (distinct_causes_distinct_statuses Sample.store Sample.store
           (Some "no-such-token"%string) (Some Sample.token)
           (Sample.log_up 2000) (Sample.log_unreadable 2000)
           NotFound UpstreamUnavailable);
    [intros t [= <-]; compute_done | intros t [= <-]; compute_done
    | reflexivity | reflexivity | discriminate | reflexivity].
Defined.
